(** * client_chat.py: an MCP chat client bridging Ollama and a tool server

    A shallow embedding of [src/client_chat.py].  The program is glue code
    around three collaborators (the tool subprocess reached through an MCP
    [ClientSession], the Ollama HTTP endpoint, and the console), so the
    embedding threads an explicit state holding the chronological trace of
    every external interaction.  The collaborators' answers are oracles that
    may depend on everything that happened before. *)

From Stdlib Require Import List ZArith NArith Bool Lia String Ascii.
From Stdlib Require Import Floats.SpecFloat Numbers.DecimalString.
Import ListNotations.

Set Implicit Arguments.
Set Warnings "-register-all".

(* ===================================================================== *)
(** ** Python strings *)
(* ===================================================================== *)

(** A Python [str] is a sequence of Unicode code points. *)
Definition str := list N.

(** Text of an ASCII literal. *)
Definition u (s : string) : str := map N_of_ascii (list_ascii_of_string s).

Fixpoint str_eqb (a b : str) : bool :=
  match a, b with
  | [], [] => true
  | x :: a', y :: b' => N.eqb x y && str_eqb a' b'
  | _, _ => false
  end.

(** [str.isspace] on one code point: the table of CPython's
    [_PyUnicode_IsWhitespace], which is what [str.strip()] removes. *)
Definition is_space (c : N) : bool :=
  ((9 <=? c) && (c <=? 13) || (28 <=? c) && (c <=? 32)
   || (c =? 133) || (c =? 160) || (c =? 5760)
   || (8192 <=? c) && (c <=? 8202)
   || (c =? 8232) || (c =? 8233) || (c =? 8239) || (c =? 8287)
   || (c =? 12288))%N.

Fixpoint lstrip (s : str) : str :=
  match s with
  | c :: s' => if is_space c then lstrip s' else s
  | [] => []
  end.

Definition rstrip (s : str) : str := rev (lstrip (rev s)).

(** [s.strip()] *)
Definition strip (s : str) : str := rstrip (lstrip s).

Fixpoint startswith (s p : str) : bool :=
  match p, s with
  | [], _ => true
  | x :: p', y :: s' => N.eqb x y && startswith s' p'
  | _ :: _, [] => false
  end.

(** [s.endswith(suffix)] *)
Definition endswith (s suffix : str) : bool :=
  startswith (rev s) (rev suffix).

(** [needle in s] for two strings: substring search. *)
Fixpoint contains (s needle : str) : bool :=
  startswith s needle ||
  match s with
  | [] => false
  | _ :: s' => contains s' needle
  end.

(** Decimal text of an integer, as [format] gives it for an [int]. *)
Definition str_of_Z (z : Z) : str := u (NilZero.string_of_int (Z.to_int z)).

(* ===================================================================== *)
(** ** Python values and exceptions *)
(* ===================================================================== *)

(** The values [json] decoding produces, which are also the values the
    program builds for the request body.  A [dict] with string keys is an
    association list in insertion order, looked up by its first match. *)
Inductive pyval :=
| PNone
| PBool (b : bool)
| PInt (z : Z)
| PFloat (f : spec_float)
| PStr (s : str)
| PList (l : list pyval)
| PDict (d : list (str * pyval)).

(** The exception classes the program and its collaborators raise.
    [except Exception] catches the subclasses of [Exception] only. *)
Inductive exn_class :=
| Exception_            (* a bare [Exception(...)] *)
| ValueError
| JSONDecodeError       (* subclass of ValueError *)
| AttributeError
| TypeError
| KeyError
| IndexError
| EOFError
| OtherException (name : str)       (* any other subclass of Exception *)
| KeyboardInterrupt
| SystemExit
| CancelledError
| OtherBaseException (name : str).  (* any other class outside Exception *)

Definition is_Exception (c : exn_class) : bool :=
  match c with
  | KeyboardInterrupt | SystemExit | CancelledError | OtherBaseException _ => false
  | _ => true
  end.

(** An exception object: its class and [str(e)]. *)
Record exn := mkExn { exn_cls : exn_class; exn_str : str }.

Inductive outcome (A : Type) :=
| Ok (a : A)
| Raise (e : exn).
Arguments Ok {A} a.
Arguments Raise {A} e.

Definition obind {A B} (c : outcome A) (k : A -> outcome B) : outcome B :=
  match c with
  | Ok a => k a
  | Raise e => Raise e
  end.

Definition type_name (v : pyval) : str :=
  match v with
  | PNone => u "NoneType"
  | PBool _ => u "bool"
  | PInt _ => u "int"
  | PFloat _ => u "float"
  | PStr _ => u "str"
  | PList _ => u "list"
  | PDict _ => u "dict"
  end.

(** Truth value of an object, as [or] and [if] test it. *)
Definition truthy (v : pyval) : bool :=
  match v with
  | PNone => false
  | PBool b => b
  | PInt z => negb (z =? 0)%Z
  | PFloat f => match f with S754_zero _ => false | _ => true end
  | PStr s => match s with [] => false | _ => true end
  | PList l => match l with [] => false | _ => true end
  | PDict d => match d with [] => false | _ => true end
  end.

Fixpoint dict_find (k : str) (d : list (str * pyval)) : option pyval :=
  match d with
  | [] => None
  | (k', v) :: d' => if str_eqb k k' then Some v else dict_find k d'
  end.

Definition quote (s : str) : str := u "'" ++ s ++ u "'".

Definition no_attribute (v : pyval) (attr : string) : exn :=
  mkExn AttributeError
        (quote (type_name v) ++ u " object has no attribute " ++ quote (u attr)).

(** [o.get(k, dflt)]: only a [dict] has the method. *)
Definition py_get (o : pyval) (k : str) (dflt : pyval) : outcome pyval :=
  match o with
  | PDict d => Ok (match dict_find k d with Some v => v | None => dflt end)
  | _ => Raise (no_attribute o "get")
  end.

Definition py_eq_str (k : str) (v : pyval) : bool :=
  match v with
  | PStr s => str_eqb s k
  | _ => false
  end.

(** [k in o] for a string [k]: key test on a [dict], substring test on a
    [str], element test on a [list], [TypeError] on the rest. *)
Definition py_contains (k : str) (o : pyval) : outcome bool :=
  match o with
  | PDict d => Ok (match dict_find k d with Some _ => true | None => false end)
  | PStr s => Ok (contains s k)
  | PList l => Ok (existsb (py_eq_str k) l)
  | _ => Raise (mkExn TypeError
                 (u "argument of type " ++ quote (type_name o) ++ u " is not iterable"))
  end.

(** [o[k]] for a string [k]. *)
Definition py_getitem (o : pyval) (k : str) : outcome pyval :=
  match o with
  | PDict d =>
      match dict_find k d with
      | Some v => Ok v
      | None => Raise (mkExn KeyError (quote k))
      end
  | PStr _ => Raise (mkExn TypeError (u "string indices must be integers, not 'str'"))
  | PList _ => Raise (mkExn TypeError (u "list indices must be integers or slices, not str"))
  | _ => Raise (mkExn TypeError (quote (type_name o) ++ u " object is not subscriptable"))
  end.

(** [a or b], with [b] evaluated only when [a] is falsy. *)
Definition py_or (a : pyval) (b : outcome pyval) : outcome pyval :=
  if truthy a then Ok a else b.

(* ===================================================================== *)
(** ** The collaborators *)
(* ===================================================================== *)

(** A tool as [list_tools()] describes it ([mcp.types.Tool]). *)
Record Tool := mkTool {
  tool_name : str;
  tool_description : option str;      (* [None] when the server gives none *)
  tool_inputSchema : pyval
}.

(** An element of [CallToolResult.content]; only text content has a
    [text] attribute. *)
Inductive content_item :=
| TextContent (text : str)
| OtherContent (kind : str).

Record CallToolResult := mkResult {
  content : list content_item;
  isError : bool
}.

(** What [aiohttp] hands back for one POST: [response.status], and what
    awaiting [response.text()] and [response.json()] gives. *)
Record Response := mkResponse {
  status : Z;
  text_ : outcome str;
  json_ : outcome pyval
}.

(** Contexts entered on the client's [AsyncExitStack]. *)
Inductive resource :=
| StdioClient (command : str) (args : list str)
| ClientSessionCtx.

(** One interaction with the outside, in the order it happened. *)
Inductive event :=
| EvPrint (text : str)
| EvInput (prompt : str) (line : outcome str)
| EvEnter (r : resource)
| EvInitialize
| EvListTools
| EvPost (url : str) (headers data : pyval)
| EvCallTool (name args : pyval)
| EvAclose (released : list resource).

Definition trace := list event.

(** Everything the program does not define itself: the Python runtime's
    case mapping, JSON decoder and [repr], and the answers of the console,
    the tool subprocess and the HTTP endpoint, each a function of the
    history so far. *)
Record World := mkWorld {
  w_lower : str -> str;                          (* [str.lower] *)
  w_json_loads : str -> outcome pyval;           (* [json.loads] *)
  w_repr : pyval -> str;                         (* [repr] of a value *)
  w_repr_result : CallToolResult -> str;         (* [repr] of a result object *)
  w_input : trace -> outcome str;                (* [input(prompt)] *)
  w_enter : trace -> resource -> outcome unit;   (* [__aenter__] of a context *)
  w_initialize : trace -> outcome unit;          (* [session.initialize()] *)
  w_list_tools : trace -> outcome (list Tool);   (* [session.list_tools()] *)
  w_call_tool : trace -> pyval -> pyval -> outcome CallToolResult;
  w_post : trace -> pyval -> outcome Response;   (* [session.post(...)] *)
  w_aclose : trace -> outcome unit               (* the stack's [__aexit__]s *)
}.

(** The [MCPClient] object together with the history of the run. *)
Record client := mkClient {
  history : trace;
  exit_stack : list resource;     (* most recently entered first *)
  session : bool                  (* [self.session is not None] *)
}.

Definition log (ev : event) (c : client) : client :=
  mkClient (history c ++ [ev]) (exit_stack c) (session c).

(* ===================================================================== *)
(** ** A state-and-exception monad for the async methods *)
(* ===================================================================== *)

Definition M (A : Type) := client -> outcome A * client.

Definition ret {A} (a : A) : M A := fun c => (Ok a, c).

Definition raise {A} (e : exn) : M A := fun c => (Raise e, c).

Definition bind {A B} (m : M A) (k : A -> M B) : M B :=
  fun c =>
    match m c with
    | (Ok a, c') => k a c'
    | (Raise e, c') => (Raise e, c')
    end.

Definition lift {A} (o : outcome A) : M A := fun c => (o, c).

Declare Scope py_scope.
Delimit Scope py_scope with py.
Notation "x <- m ;; k" := (bind m (fun x => k))
  (at level 61, m at next level, right associativity) : py_scope.
Notation "m ;;; k" := (bind m (fun _ => k))
  (at level 61, right associativity) : py_scope.
Open Scope py_scope.

(** [try: body except Exception as e: handler e] *)
Definition try_except {A} (body : M A) (handler : exn -> M A) : M A :=
  fun c =>
    match body c with
    | (Raise e, c') =>
        if is_Exception (exn_cls e) then handler e c' else (Raise e, c')
    | r => r
    end.

(** An external call: the oracle answers from the history before the call,
    and the call is recorded. *)
Definition ask {A} (ev : event) (oracle : trace -> outcome A) : M A :=
  fun c => (oracle (history c), log ev c).

Definition print_ (text : str) : M unit :=
  fun c => (Ok tt, log (EvPrint text) c).

(* ===================================================================== *)
(** ** The program *)
(* ===================================================================== *)

Section MCPClient.

Variable W : World.

(** [str(v)], as an f-string or [print] formats a value: a [str] is
    itself, the other values print as their [repr]. *)
Definition py_str (v : pyval) : str :=
  match v with
  | PStr s => s
  | _ => w_repr W v
  end.

(** [self.exit_stack.enter_async_context(r)]: the context is pushed only
    when entering it succeeds. *)
Definition enter_async_context (r : resource) : M unit :=
  fun c =>
    match w_enter W (history c) r with
    | Ok _ =>
        (Ok tt, mkClient (history c ++ [EvEnter r]) (r :: exit_stack c) (session c))
    | Raise e => (Raise e, log (EvEnter r) c)
    end.

Definition set_session : M unit :=
  fun c => (Ok tt, mkClient (history c) (exit_stack c) true).

(** A method call on [self.session], which is [None] before connecting. *)
Definition on_session {A} (method : string) (call : M A) : M A :=
  fun c =>
    if session c then call c
    else (Raise (no_attribute PNone method), c).

Definition list_tools : M (list Tool) :=
  on_session "list_tools" (ask EvListTools (w_list_tools W)).

Definition call_tool (name args : pyval) : M CallToolResult :=
  on_session "call_tool"
    (ask (EvCallTool name args) (fun t => w_call_tool W t name args)).

Definition input_ (prompt : str) : M str :=
  fun c =>
    let r := w_input W (history c) in
    (r, log (EvInput prompt r) c).

(** *** [connect_to_server] (lines 17-36) *)

Definition connect_to_server (server_script_path : str) : M unit :=
  let is_python := endswith server_script_path (u ".py") in
  if negb is_python then
    raise (mkExn ValueError (u "Server script must be a .py file"))
  else
    enter_async_context (StdioClient (u "python") [server_script_path]) ;;;
    enter_async_context ClientSessionCtx ;;;
    set_session ;;;
    on_session "initialize" (ask EvInitialize (w_initialize W)) ;;;
    tools <- list_tools ;;
    print_ ([10%N] ++ u "Connected to server with tools: "
            ++ w_repr W (PList (map (fun tool => PStr (tool_name tool)) tools))).

(** *** [call_ollama] (lines 38-71) *)

Definition ollama_url : str := u "http://localhost:11434/api/chat".

Definition headers : pyval :=
  PDict [(u "Content-Type", PStr (u "application/json"))].

Definition system_prompt : str :=
  u "Puoi rispondere normalmente alle domande dell'utente. "
  ++ u "Se tra gli strumenti disponibili c'" ++ [232%N]
  ++ u " qualcosa che pu" ++ [242%N]
  ++ u " aiutarti a rispondere meglio, usalo. "
  ++ u "Altrimenti, non usare alcuno strumento.".

Definition messages (query : str) : pyval :=
  PList [ PDict [(u "role", PStr (u "system")); (u "content", PStr system_prompt)];
          PDict [(u "role", PStr (u "user")); (u "content", PStr query)] ].

Definition request_data (query : str) (available_tools : pyval) : pyval :=
  PDict [ (u "model", PStr (u "qwen2.5:7b"));
          (u "messages", messages query);
          (u "tools", available_tools);
          (u "tool_choice", PStr (u "auto"));
          (u "stream", PBool false) ].

Definition post (url : str) (hdrs data : pyval) : M Response :=
  ask (EvPost url hdrs data) (fun t => w_post W t data).

(** What the method makes of the response (lines 63-71). *)
Definition read_response (response : Response) : outcome pyval :=
  if (status response =? 200)%Z then
    obind (json_ response) (fun response_data =>
    obind (py_get response_data (u "message") (PDict [])) (fun message =>
    obind (py_contains (u "tool_calls") message) (fun has_tool_calls =>
    if has_tool_calls : bool then py_getitem message (u "tool_calls")
    else py_get message (u "content") (PStr []))))
  else
    obind (text_ response) (fun body =>
    Raise (mkExn Exception_
             (u "Errore Ollama: " ++ str_of_Z (status response) ++ u " - " ++ body))).

Definition call_ollama (query : str) (available_tools : pyval) : M pyval :=
  response <- post ollama_url headers (request_data query available_tools) ;;
  lift (read_response response).

(** *** [process_query] (lines 73-103) *)

(** [tool.description or ""] *)
Definition description_or_empty (tool : Tool) : str :=
  match tool_description tool with
  | Some (ch :: s) => ch :: s
  | _ => []
  end.

Definition descriptor (tool : Tool) : pyval :=
  PDict [ (u "type", PStr (u "function"));
          (u "function",
           PDict [ (u "name", PStr (tool_name tool));
                   (u "description", PStr (description_or_empty tool));
                   (u "parameters", tool_inputSchema tool) ]) ].

Definition available_tools_of (tools : list Tool) : pyval :=
  PList (map descriptor tools).

(** Line 92. *)
Definition resolve_name (call : pyval) : outcome pyval :=
  obind (py_get call (u "function") (PDict [])) (fun fn =>
  obind (py_get fn (u "name") PNone) (fun nested =>
  py_or nested (py_get call (u "name") PNone))).

(** Line 93. *)
Definition resolve_args_raw (call : pyval) : outcome pyval :=
  obind (py_get call (u "function") (PDict [])) (fun fn =>
  obind (py_get fn (u "arguments") PNone) (fun nested =>
  py_or nested (py_get call (u "arguments") (PDict [])))).

(** Line 94. *)
Definition decode_args (args_raw : pyval) : outcome pyval :=
  match args_raw with
  | PStr s => w_json_loads W s
  | _ => Ok args_raw
  end.

(** Lines 92-94: the name and the arguments a call is invoked with. *)
Definition resolve_call (call : pyval) : outcome (pyval * pyval) :=
  obind (resolve_name call) (fun name =>
  obind (resolve_args_raw call) (fun args_raw =>
  obind (decode_args args_raw) (fun args =>
  Ok (name, args)))).

(** Line 97: [getattr(result.content[0], 'text', result)], already
    formatted for the [print] that follows. *)
Definition result_text (result : CallToolResult) : outcome str :=
  match content result with
  | [] => Raise (mkExn IndexError (u "list index out of range"))
  | TextContent text :: _ => Ok text
  | OtherContent _ :: _ => Ok (w_repr_result W result)
  end.

Definition tool_notice (name args : pyval) : str :=
  [10; 9881; 65039]%N ++ u " Eseguo tool '" ++ py_str name
  ++ u "' con argomenti: " ++ py_str args.

Definition result_notice (name : pyval) (text : str) : str :=
  [10; 128230]%N ++ u " Risultato da " ++ py_str name ++ u ":" ++ [10%N] ++ text.

(** The body of the [for] loop (lines 92-98). *)
Definition run_call (call : pyval) : M unit :=
  na <- lift (resolve_call call) ;;
  let '(name, args) := na in
  print_ (tool_notice name args) ;;;
  result <- call_tool name args ;;
  text <- lift (result_text result) ;;
  print_ (result_notice name text).

(** [for call in content: ...] *)
Fixpoint run_calls (calls : list pyval) : M unit :=
  match calls with
  | [] => ret tt
  | call :: rest => run_call call ;;; run_calls rest
  end.

(** Lines 88-100, the body of the [try]. *)
Definition answer (query : str) (available_tools : pyval) : M unit :=
  content <- call_ollama query available_tools ;;
  match content with
  | PList calls => run_calls calls
  | _ => print_ ([10; 129302]%N ++ u " Modello: " ++ py_str content)
  end.

Definition report_ollama_error (e : exn) : M unit :=
  print_ (u "Errore durante la chiamata a Ollama: " ++ exn_str e).

Definition process_query (query : str) : M unit :=
  tools <- list_tools ;;
  let available_tools := available_tools_of tools in
  try_except (answer query available_tools) report_ollama_error.

(** *** [chat_loop] (lines 105-118) *)

Inductive flow := Break | Continue.

Definition quit : str := u "quit".

Definition report_error (e : exn) : M flow :=
  print_ ([10%N] ++ u "Errore: " ++ exn_str e) ;;; ret Continue.

Definition prompt : str := [10%N] ++ u "Query: ".

(** The body of the [try] in the loop (lines 111-115). *)
Definition read_and_process : M flow :=
  line <- input_ prompt ;;
  let query := strip line in
  if str_eqb (w_lower W query) quit then ret Break
  else process_query query ;;; ret Continue.

(** One pass through the body of [while True] (lines 110-118). *)
Definition iteration : M flow :=
  try_except read_and_process report_error.

(** [while True], unrolled at most [fuel] times; [None] when the fuel is
    spent with the loop still running. *)
Fixpoint while_true (fuel : nat) (c : client) : option (outcome unit) * client :=
  match fuel with
  | O => (None, c)
  | S fuel' =>
      match iteration c with
      | (Ok Break, c') => (Some (Ok tt), c')
      | (Ok Continue, c') => while_true fuel' c'
      | (Raise e, c') => (Some (Raise e), c')
      end
  end.

Definition chat_loop (fuel : nat) (c : client) : option (outcome unit) * client :=
  match (print_ ([10%N] ++ u "MCP Client Started!") ;;;
         print_ (u "Type your queries or 'quit' to exit.")) c with
  | (Ok _, c') => while_true fuel c'
  | (Raise e, c') => (Some (Raise e), c')
  end.

(** *** [cleanup] and [main] (lines 120-133) *)

(** [self.exit_stack.aclose()]: every entered context is exited, the
    most recent first, and the stack is left empty. *)
Definition cleanup : M unit :=
  fun c =>
    (w_aclose W (history c),
     mkClient (history c ++ [EvAclose (exit_stack c)]) [] (session c)).

Definition new_client (t : trace) : client := mkClient t [] false.

Definition usage : str :=
  u "Usage: python <path_to_client_script> <path_to_server_script>".

(** [finally: await client.cleanup()]: the clause runs whatever the
    [try] block did, and an exception of the clause replaces the block's.
    A block that is still running has not reached it. *)
Definition finally_cleanup (block : option (outcome unit) * client)
  : option (outcome unit) * client :=
  match block with
  | (None, c1) => (None, c1)
  | (Some r, c1) =>
      match cleanup c1 with
      | (Ok _, c2) => (Some r, c2)
      | (Raise e, c2) => (Some (Raise e), c2)
      end
  end.

(** [main], started with history [t] and [sys.argv = argv]. *)
Definition main (fuel : nat) (argv : list str) (t : trace)
  : option (outcome unit) * client :=
  if (List.length argv <? 2)%nat then
    match (print_ usage ;;; raise (mkExn SystemExit (u "1"))) (new_client t) with
    | (r, c) => (Some r, c)
    end
  else
    finally_cleanup
      match connect_to_server (nth 1 argv []) (new_client t) with
      | (Ok _, c') => chat_loop fuel c'
      | (Raise e, c') => (Some (Raise e), c')
      end.

End MCPClient.

Arguments Break : clear implicits.

(* ===================================================================== *)
(** ** A scripted world to run the program in *)
(* ===================================================================== *)

Module Sample.

(** [str.lower] on ASCII text, the only text the samples lower. *)
Definition ascii_lower (s : str) : str :=
  map (fun ch => if ((65 <=? ch) && (ch <=? 90))%N then (ch + 32)%N else ch) s.

(** [repr] of the values the samples print: no floats, and strings
    without quotes, backslashes or control characters. *)
Fixpoint repr (v : pyval) : str :=
  let fix items (l : list pyval) : str :=
    match l with
    | [] => []
    | x :: l' =>
        match l' with
        | [] => repr x
        | _ :: _ => repr x ++ u ", " ++ items l'
        end
    end in
  let fix pairs (d : list (str * pyval)) : str :=
    match d with
    | [] => []
    | (k, x) :: d' =>
        match d' with
        | [] => quote k ++ u ": " ++ repr x
        | _ :: _ => quote k ++ u ": " ++ repr x ++ u ", " ++ pairs d'
        end
    end in
  match v with
  | PNone => u "None"
  | PBool true => u "True"
  | PBool false => u "False"
  | PInt z => str_of_Z z
  | PFloat _ => u "<float>"
  | PStr s => quote s
  | PList l => u "[" ++ items l ++ u "]"
  | PDict d => u "{" ++ pairs d ++ u "}"
  end.

Definition repr_result (r : CallToolResult) : str := u "CallToolResult(...)".

(** The text [{"city":"Rome"}]. *)
Definition rome_text : str :=
  [123; 34]%N ++ u "city" ++ [34; 58; 34]%N ++ u "Rome" ++ [34; 125]%N.

Definition rome : pyval := PDict [(u "city", PStr (u "Rome"))].

(** [json.loads] on the strings the samples decode: the object above
    decodes, and a lone opening brace is malformed. *)
Definition json_loads (s : str) : outcome pyval :=
  if str_eqb s rome_text then Ok rome
  else if str_eqb s (u "{") then
    Raise (mkExn JSONDecodeError
      (u "Expecting property name enclosed in double quotes: line 1 column 2 (char 1)"))
  else Raise (mkExn JSONDecodeError (u "Expecting value: line 1 column 1 (char 0)")).

Definition is_input (ev : event) : bool :=
  match ev with EvInput _ _ => true | _ => false end.

Definition is_post (ev : event) : bool :=
  match ev with EvPost _ _ _ => true | _ => false end.

(** The console types [lines] and then reaches end of file; the endpoint
    answers the successive requests with [responses]; the tool server
    offers [tools] and runs them with [tool]. *)
Definition scripted (lines : list str) (responses : list Response)
           (tools : list Tool)
           (tool : pyval -> pyval -> outcome CallToolResult) : World :=
  mkWorld ascii_lower json_loads repr repr_result
    (fun t => nth (List.length (filter is_input t)) (map Ok lines)
                  (Raise (mkExn EOFError (u "EOF when reading a line"))))
    (fun _ _ => Ok tt)
    (fun _ => Ok tt)
    (fun _ => Ok tools)
    (fun _ => tool)
    (fun t _ => nth (List.length (filter is_post t)) (map Ok responses)
                  (Raise (mkExn (OtherException (u "ClientConnectorError"))
                                (u "Cannot connect to host localhost:11434"))))
    (fun _ => Ok tt).

Definition get_weather : Tool :=
  mkTool (u "get_weather") None
         (PDict [(u "type", PStr (u "object"))]).

Definition sunny (name args : pyval) : outcome CallToolResult :=
  Ok (mkResult [TextContent (u "Sunny")] false).

(** A JSON body received with status 200. *)
Definition ok_json (body : pyval) : Response :=
  mkResponse 200 (Ok []) (Ok body).

Definition reply (message : pyval) : pyval := PDict [(u "message", message)].

Definition nested_call (name : string) (arguments : pyval) : pyval :=
  PDict [(u "function",
          PDict [(u "name", PStr (u name)); (u "arguments", arguments)])].

(** A client whose connection is up. *)
Definition connected (t : trace) : client :=
  mkClient t [ClientSessionCtx; StdioClient (u "python") [u "tool_server.py"]] true.

(** Three requested calls, the second with a malformed argument string. *)
Definition three_calls : list pyval :=
  [ nested_call "get_weather" (PStr rome_text);
    nested_call "get_time" (PStr (u "{"));
    nested_call "get_news" (PDict []) ].

Definition batch_response : Response :=
  ok_json (reply (PDict [(u "tool_calls", PList three_calls)])).

Definition batch_world : World :=
  scripted [u "hi"; u "quit"] [batch_response] [get_weather] sunny.

Definition hello_response : Response :=
  ok_json (reply (PDict [(u "content", PStr (u "Hello!"))])).

Definition hello_world : World :=
  scripted [u "  hi "; u "QUIT  "] [hello_response] [get_weather] sunny.

Definition error_response : Response :=
  mkResponse 500 (Ok (u "internal error"))
             (Raise (mkExn (OtherException (u "ContentTypeError")) [])).

Definition error_world : World :=
  scripted [u "hi"; u "quit"] [error_response] [get_weather] sunny.

Definition weather_response : Response :=
  ok_json (reply (PDict [(u "tool_calls",
                          PList [nested_call "get_weather" (PStr rome_text)])])).

Definition weather_world : World :=
  scripted [u "what's the weather"; u "quit"] [weather_response] [get_weather] sunny.

Definition argv : list str := [u "client_chat.py"; u "tool_server.py"].

(** The console is at end of file from the start. *)
Definition eof_world : World := scripted [] [] [get_weather] sunny.

(** [world] with another console, another way of entering contexts,
    another tool listing and another tool runner. *)
Definition rewire (world : World)
           (input : trace -> outcome str)
           (enter : trace -> resource -> outcome unit)
           (listing : trace -> outcome (list Tool))
           (tool : trace -> pyval -> pyval -> outcome CallToolResult) : World :=
  mkWorld (w_lower world) (w_json_loads world) (w_repr world) (w_repr_result world)
          input enter (w_initialize world) listing tool
          (w_post world) (w_aclose world).



Definition no_python : exn :=
  mkExn (OtherException (u "FileNotFoundError"))
        (u "[Errno 2] No such file or directory: 'python'").

(** The subprocess cannot be launched. *)
Definition no_python_world : World :=
  rewire hello_world (w_input hello_world) (fun _ _ => Raise no_python)
         (w_list_tools hello_world) (w_call_tool hello_world).

Definition closed : exn :=
  mkExn (OtherException (u "McpError")) (u "Connection closed").

(** The tool server no longer answers the listing. *)
Definition deaf_world : World :=
  rewire hello_world (w_input hello_world) (w_enter hello_world)
         (fun _ => Raise closed) (w_call_tool hello_world).

(** A tool that answers with no content at all. *)
Definition mute (t : trace) (name args : pyval) : outcome CallToolResult :=
  Ok (mkResult [] false).

Definition mute_world : World :=
  rewire weather_world (w_input weather_world) (w_enter weather_world)
         (w_list_tools weather_world) mute.

Definition empty_batch_response : Response :=
  ok_json (reply (PDict [ (u "content", PStr (u "Hello!"));
                          (u "tool_calls", PList []) ])).

Definition empty_batch_world : World :=
  scripted [u "hi"; u "quit"] [empty_batch_response] [get_weather] sunny.

(** A reply whose content is a list. *)
Definition parts_response : Response :=
  ok_json (reply (PDict [(u "content", PList [nested_call "get_weather" rome])])).

Definition parts_world : World :=
  scripted [u "hi"; u "quit"] [parts_response] [get_weather] sunny.

(** A reply whose message is a string. *)
Definition bare_response : Response :=
  ok_json (reply (PStr (u "no tool_calls here"))).

Definition blank_world : World :=
  scripted [[32; 9; 160]%N; u "quit"] [hello_response] [get_weather] sunny.

(** The connected client after the listing and the request for [hi]. *)
Definition posted_hi : client :=
  log (EvPost ollama_url headers
              (request_data (u "hi") (available_tools_of [get_weather])))
      (log EvListTools (connected [])).

Definition two_calls : list pyval :=
  [ nested_call "get_weather" (PStr rome_text);
    PDict [(u "name", PStr (u "get_news"))] ].

End Sample.

(* ===================================================================== *)
(** ** Vocabulary of the specification *)
(* ===================================================================== *)

(** A function-calling descriptor,
    [{type: "function", function: {name, description, parameters}}]. *)
Definition function_descriptor (name description : str) (parameters : pyval) : pyval :=
  PDict [ (u "type", PStr (u "function"));
          (u "function", PDict [ (u "name", PStr name);
                                 (u "description", PStr description);
                                 (u "parameters", parameters) ]) ].

(** The description with the empty string standing in for a missing one. *)
Definition description_text (d : option str) : str :=
  match d with
  | Some s => s
  | None => []
  end.

(** A field of a mapping, with a default for the absent field. *)
Definition field (k : str) (d : list (str * pyval)) (dflt : pyval) : pyval :=
  match dict_find k d with
  | Some v => v
  | None => dflt
  end.

(** The two-message conversation of one request. *)
Definition conversation (query : str) : pyval :=
  PList [ PDict [(u "role", PStr (u "system")); (u "content", PStr system_prompt)];
          PDict [(u "role", PStr (u "user")); (u "content", PStr query)] ].

(** The tool invocations recorded in a history, oldest first. *)
Fixpoint calls_of (t : trace) : list (pyval * pyval) :=
  match t with
  | [] => []
  | EvCallTool name args :: t' => (name, args) :: calls_of t'
  | _ :: t' => calls_of t'
  end.

(** The texts printed in a history, oldest first. *)
Fixpoint prints_of (t : trace) : list str :=
  match t with
  | [] => []
  | EvPrint text :: t' => text :: prints_of t'
  | _ :: t' => prints_of t'
  end.


Definition is_aclose (ev : event) : bool :=
  match ev with
  | EvAclose _ => true
  | _ => false
  end.

(** A history in which every model request carries the conversation of
    the query current when it was sent: the stripped text of the latest
    line read ([current] before any line is read). *)
Fixpoint fresh_requests (current : str) (t : trace) : Prop :=
  match t with
  | [] => True
  | EvInput _ (Ok line) :: t' => fresh_requests (strip line) t'
  | EvPost _ _ (PDict data) :: t' =>
      dict_find (u "messages") data = Some (conversation current)
      /\ fresh_requests current t'
  | EvPost _ _ _ :: t' => False
  | _ :: t' => fresh_requests current t'
  end.

(** No whitespace at either end. *)
Definition trimmed (s : str) : Prop :=
  (forall ch rest, s = ch :: rest -> is_space ch = false)
  /\ (forall front ch, s = front ++ [ch] -> is_space ch = false).

(** Every run of [m] appends events to the history, all of them
    satisfying [Q]. *)
Definition emits {A} (Q : event -> Prop) (m : M A) : Prop :=
  forall c, exists evs,
    history (snd (m c)) = history c ++ evs /\ Forall Q evs.

(** An event of the processing of [query]: not a console read, and if a
    model request, the one built for [query]. *)
Definition serves (query : str) (ev : event) : Prop :=
  match ev with
  | EvInput _ _ => False
  | EvPost url hdrs data =>
      url = ollama_url /\ hdrs = headers
      /\ exists tools, data = request_data query tools
  | _ => True
  end.


(** String arguments are decoded, the others pass as they are. *)
Definition decoded (W : World) (raw args : pyval) : Prop :=
  match raw with
  | PStr s => w_json_loads W s = Ok args
  | _ => args = raw
  end.

(** The entry [call] resolves to the invocation [na] = (name, arguments). *)
Definition resolves_to (W : World) (call : pyval) (na : pyval * pyval) : Prop :=
  exists raw,
    resolve_name call = Ok (fst na)
    /\ resolve_args_raw call = Ok raw
    /\ decoded W raw (snd na).

(** The client reached when the loop body has been run on each of
    [entries] in turn and has returned every time; [None] when one of
    those runs raises. *)
Fixpoint completed (W : World) (entries : list pyval) (c : client) : option client :=
  match entries with
  | [] => Some c
  | call :: later =>
      match run_call W call c with
      | (Ok _, c1) => completed W later c1
      | (Raise _, _) => None
      end
  end.

(** Anything but a mapping. *)
Definition not_mapping (v : pyval) : Prop := forall d, v <> PDict d.

(** A string of whitespace only (the empty string included). *)
Definition blank (s : str) : Prop := Forall (fun ch => is_space ch = true) s.

(** The error for a script of the wrong kind. *)
Definition invalid_script : exn :=
  mkExn ValueError (u "Server script must be a .py file").

(** The subprocess context for a script. *)
Definition stdio_for (path : str) : resource := StdioClient (u "python") [path].

(** The line printed for a textual answer. *)
Definition model_line (W : World) (answer_ : pyval) : str :=
  [10; 129302]%N ++ u " Modello: " ++ py_str W answer_.

(** What running a batch of calls and reporting can add to the history. *)
Definition batch_event (ev : event) : Prop :=
  match ev with
  | EvPrint _ | EvCallTool _ _ => True
  | _ => False
  end.

(** What connecting can add to the history. *)
Definition connect_event (ev : event) : Prop :=
  match ev with
  | EvEnter _ | EvInitialize | EvListTools | EvPrint _ => True
  | _ => False
  end.

(** What the chat loop can add to the history: console traffic, tool
    listings and invocations, and requests to the one endpoint. *)
Definition loop_event (ev : event) : Prop :=
  match ev with
  | EvPrint _ | EvInput _ _ | EvListTools | EvCallTool _ _ => True
  | EvPost url hdrs _ => url = ollama_url /\ hdrs = headers
  | EvEnter _ | EvInitialize | EvAclose _ => False
  end.

(** Every run of [m] leaves the component [f] of the client as it was. *)
Definition keeps {A X} (f : client -> X) (m : M A) : Prop :=
  forall c, f (snd (m c)) = f c.

(** Lines 29-36 of [connect_to_server]: what follows the two contexts. *)
Definition handshake (W : World) : M unit :=
  set_session ;;;
  on_session "initialize" (ask EvInitialize (w_initialize W)) ;;;
  tools <- list_tools W ;;
  print_ ([10%N] ++ u "Connected to server with tools: "
          ++ w_repr W (PList (map (fun tool => PStr (tool_name tool)) tools))).

(** Lines 90-100: what is done with the gateway's answer. *)
Definition dispatch (W : World) (answer_ : pyval) : M unit :=
  match answer_ with
  | PList calls => run_calls W calls
  | _ => print_ (model_line W answer_)
  end.

(** The client after the tool listing and the model request of a query. *)
Definition posted (query : str) (tools : list Tool) (c : client) : client :=
  log (EvPost ollama_url headers (request_data query (available_tools_of tools)))
      (log EvListTools c).

(** The client after the two opening lines of the chat loop. *)
Definition greeted (c : client) : client :=
  log (EvPrint (u "Type your queries or 'quit' to exit."))
      (log (EvPrint ([10%N] ++ u "MCP Client Started!")) c).

(* ===================================================================== *)
(** ** The Tool Registry Adapter *)
(* ===================================================================== *)

Lemma descriptor_shape (tool : Tool) :
  descriptor tool =
  function_descriptor (tool_name tool) (description_text (tool_description tool))
                      (tool_inputSchema tool).
Proof.
  unfold descriptor, function_descriptor, description_or_empty, description_text.
  destruct (tool_description tool) as [[|ch s]|]; reflexivity.
Qed.

(** C6: the adapter turns the listed tools into as many function-calling
    descriptors, in the same order; each has the shape
    [{type: "function", function: {name, description, parameters}}] with the
    tool's name and input schema, and its description is the tool's, or the
    empty string when the tool has none. *)
Theorem adapter_preserves_tools (tools : list Tool) :
  exists ds,
    available_tools_of tools = PList ds
    /\ List.length ds = List.length tools
    /\ (forall i,
          nth_error ds i =
          option_map (fun tool =>
                        function_descriptor (tool_name tool)
                          (description_text (tool_description tool))
                          (tool_inputSchema tool))
                     (nth_error tools i))
    /\ (forall i tool,
          nth_error tools i = Some tool ->
          tool_description tool = None ->
          nth_error ds i =
          Some (function_descriptor (tool_name tool) [] (tool_inputSchema tool))).
Proof.
  exists (map descriptor tools).
  assert (Hnth : forall i,
             nth_error (map descriptor tools) i =
             option_map (fun tool =>
                           function_descriptor (tool_name tool)
                             (description_text (tool_description tool))
                             (tool_inputSchema tool))
                        (nth_error tools i)).
  { intro i. rewrite nth_error_map.
    destruct (nth_error tools i) as [tool|]; simpl; [|reflexivity].
    now rewrite descriptor_shape. }
  repeat split.
  - apply length_map.
  - exact Hnth.
  - intros i tool Hi Hnone. rewrite Hnth, Hi. simpl. now rewrite Hnone.
Qed.

(* ===================================================================== *)
(** ** The Transport Session: connecting *)
(* ===================================================================== *)

(** C7: for a script path that does not end in [.py], connecting fails
    with the error for an invalid server script and leaves the client and
    the history as they were: no subprocess is spawned, no context entered,
    no handshake and no request made. *)
Theorem connect_rejects_other_extensions (W : World) (path : str) (c : client) :
  endswith path (u ".py") = false ->
  connect_to_server W path c =
  (Raise (mkExn ValueError (u "Server script must be a .py file")), c).
Proof.
  intro Hext. unfold connect_to_server. rewrite Hext. reflexivity.
Qed.

Lemma connect_rejects_other_extensions_witness :
  endswith (u "tool_server.js") (u ".py") = false
  /\ connect_to_server (Sample.scripted [] [] [] Sample.sunny)
                       (u "tool_server.js") (new_client []) =
     (Raise (mkExn ValueError (u "Server script must be a .py file")), new_client []).
Proof.
  split; [reflexivity|].
  apply (connect_rejects_other_extensions
           (Sample.scripted [] [] [] Sample.sunny) (u "tool_server.js") (new_client [])).
  reflexivity.
Defined.

(* ===================================================================== *)
(** ** The Model Gateway: reading the response *)
(* ===================================================================== *)

Lemma call_ollama_reads (W : World) (query : str) (tools : pyval) (c : client)
      (response : Response) :
  w_post W (history c) (request_data query tools) = Ok response ->
  call_ollama W query tools c =
  (read_response response,
   log (EvPost ollama_url headers (request_data query tools)) c).
Proof.
  intro Hpost. unfold call_ollama, bind, post, ask, lift.
  now rewrite Hpost.
Qed.

(** C2: on status 200, with a body that parses to a mapping whose
    [message] is a mapping (or is absent, which reads as the empty
    mapping), the gateway returns the [tool_calls] field verbatim when the
    message has one, and otherwise the [content] field, or the empty
    string when the message has no [content]. *)
Theorem gateway_returns_tool_calls_or_content
        (W : World) (query : str) (tools : pyval) (c : client)
        (response : Response) (body message : list (str * pyval)) :
  w_post W (history c) (request_data query tools) = Ok response ->
  status response = 200%Z ->
  json_ response = Ok (PDict body) ->
  field (u "message") body (PDict []) = PDict message ->
  fst (call_ollama W query tools c) =
  Ok (match dict_find (u "tool_calls") message with
      | Some tool_calls => tool_calls
      | None => field (u "content") message (PStr [])
      end).
Proof.
  intros Hpost Hstatus Hjson Hmessage.
  rewrite (call_ollama_reads _ _ _ _ Hpost). simpl.
  unfold read_response. rewrite Hstatus, Hjson. simpl.
  unfold field in Hmessage. rewrite Hmessage. simpl.
  unfold field.
  destruct (dict_find (u "tool_calls") message); reflexivity.
Qed.

Lemma gateway_returns_tool_calls_or_content_witness :
  fst (call_ollama Sample.hello_world (u "hi") (PList []) (new_client []))
  = Ok (PStr (u "Hello!")).
Proof.
  apply (gateway_returns_tool_calls_or_content Sample.hello_world
           (u "hi") (PList []) (new_client [])
           (response := Sample.hello_response)
           (body := [(u "message", PDict [(u "content", PStr (u "Hello!"))])])
           (message := [(u "content", PStr (u "Hello!"))]));
    reflexivity.
Defined.

(** C3: on a status other than 200 the gateway raises, and returns no
    value; the exception's text is [Errore Ollama: ], the status code in
    decimal, [ - ] and the body text received, so it holds both. *)
Theorem gateway_error_on_other_status
        (W : World) (query : str) (tools : pyval) (c : client)
        (response : Response) (body : str) :
  w_post W (history c) (request_data query tools) = Ok response ->
  status response <> 200%Z ->
  text_ response = Ok body ->
  let failure :=
    mkExn Exception_
          (u "Errore Ollama: " ++ str_of_Z (status response) ++ u " - " ++ body) in
  fst (call_ollama W query tools c) = Raise failure
  /\ (forall v, fst (call_ollama W query tools c) <> Ok v)
  /\ (exists before after,
        exn_str failure = before ++ str_of_Z (status response) ++ after)
  /\ (exists before, exn_str failure = before ++ body).
Proof.
  intros Hpost Hstatus Htext failure.
  assert (Hfail : fst (call_ollama W query tools c) = Raise failure).
  { rewrite (call_ollama_reads _ _ _ _ Hpost). simpl.
    unfold read_response.
    destruct (Z.eqb_spec (status response) 200) as [Heq|_]; [contradiction|].
    rewrite Htext. reflexivity. }
  split; [exact Hfail|]. split; [|split].
  - intros v Hv. rewrite Hfail in Hv. discriminate.
  - exists (u "Errore Ollama: "), (u " - " ++ body). reflexivity.
  - exists (u "Errore Ollama: " ++ str_of_Z (status response) ++ u " - ").
    simpl exn_str. now rewrite <- !app_assoc.
Qed.

Lemma gateway_error_on_other_status_witness :
  fst (call_ollama Sample.error_world (u "hi") (PList []) (new_client [])) =
  Raise (mkExn Exception_ (u "Errore Ollama: 500 - internal error")).
Proof.
  apply (gateway_error_on_other_status Sample.error_world
           (u "hi") (PList []) (new_client [])
           (response := Sample.error_response) (body := u "internal error")).
  - reflexivity.
  - discriminate.
  - reflexivity.
Defined.

(* ===================================================================== *)
(** ** The Dispatch Loop: resolving one tool call *)
(* ===================================================================== *)

(** C9: for an entry that is a mapping whose [function] field is a
    mapping (or is absent, which reads as the empty mapping), the name is
    the nested [function.name] when that is present and truthy and
    otherwise the top-level [name]; the arguments are the nested
    [function.arguments] when present and truthy and otherwise the
    top-level [arguments], or the empty mapping when the entry has none. *)
Theorem nested_shape_takes_precedence (call fn : list (str * pyval)) :
  field (u "function") call (PDict []) = PDict fn ->
  resolve_name (PDict call) =
    Ok (match dict_find (u "name") fn with
        | Some nested => if truthy nested then nested
                         else field (u "name") call PNone
        | None => field (u "name") call PNone
        end)
  /\ resolve_args_raw (PDict call) =
    Ok (match dict_find (u "arguments") fn with
        | Some nested => if truthy nested then nested
                         else field (u "arguments") call (PDict [])
        | None => field (u "arguments") call (PDict [])
        end).
Proof.
  intro Hfn. unfold resolve_name, resolve_args_raw. simpl.
  unfold field in Hfn. rewrite Hfn. simpl. unfold py_or, field.
  split.
  - destruct (dict_find (u "name") fn) as [nested|]; simpl; [|reflexivity].
    destruct (truthy nested); reflexivity.
  - destruct (dict_find (u "arguments") fn) as [nested|]; simpl; [|reflexivity].
    destruct (truthy nested); reflexivity.
Qed.

Lemma nested_shape_takes_precedence_witness :
  resolve_name
    (PDict [ (u "function", PDict [(u "name", PStr (u "get_weather"))]);
             (u "name", PStr (u "other"));
             (u "arguments", Sample.rome) ])
  = Ok (PStr (u "get_weather"))
  /\ resolve_args_raw
    (PDict [ (u "function", PDict [(u "name", PStr (u "get_weather"))]);
             (u "name", PStr (u "other"));
             (u "arguments", Sample.rome) ])
  = Ok Sample.rome.
Proof.
  apply (nested_shape_takes_precedence
           [ (u "function", PDict [(u "name", PStr (u "get_weather"))]);
             (u "name", PStr (u "other"));
             (u "arguments", Sample.rome) ]
           (fn := [(u "name", PStr (u "get_weather"))])).
  reflexivity.
Defined.

(* ===================================================================== *)
(** ** What a run adds to the history *)
(* ===================================================================== *)

Section Emits.

Variable W : World.
Variable Q : event -> Prop.

Lemma emits_ret {A} (a : A) : emits Q (ret a).
Proof. intro c. exists []. simpl. rewrite app_nil_r. auto. Qed.

Lemma emits_raise {A} (e : exn) : emits Q (@raise A e).
Proof. intro c. exists []. simpl. rewrite app_nil_r. auto. Qed.

Lemma emits_lift {A} (o : outcome A) : emits Q (lift o).
Proof. intro c. exists []. simpl. rewrite app_nil_r. auto. Qed.

Lemma emits_bind {A B} (m : M A) (k : A -> M B) :
  emits Q m -> (forall a, emits Q (k a)) -> emits Q (bind m k).
Proof.
  intros Hm Hk c. unfold bind.
  destruct (Hm c) as [evs1 [H1 F1]].
  destruct (m c) as [[a|e] c1]; simpl in H1.
  - destruct (Hk a c1) as [evs2 [H2 F2]].
    exists (evs1 ++ evs2). rewrite H2, H1, app_assoc. split; [reflexivity|].
    apply Forall_app; auto.
  - exists evs1. auto.
Qed.

Lemma emits_try_except {A} (body : M A) (handler : exn -> M A) :
  emits Q body -> (forall e, emits Q (handler e)) -> emits Q (try_except body handler).
Proof.
  intros Hb Hh c. unfold try_except.
  destruct (Hb c) as [evs1 [H1 F1]].
  destruct (body c) as [[a|e] c1]; simpl in H1.
  - exists evs1. auto.
  - destruct (is_Exception (exn_cls e)).
    + destruct (Hh e c1) as [evs2 [H2 F2]].
      exists (evs1 ++ evs2). rewrite H2, H1, app_assoc. split; [reflexivity|].
      apply Forall_app; auto.
    + exists evs1. auto.
Qed.

Lemma emits_ask {A} (ev : event) (oracle : trace -> outcome A) :
  Q ev -> emits Q (ask ev oracle).
Proof. intros Hev c. exists [ev]. simpl. auto. Qed.

Lemma emits_print (text : str) : Q (EvPrint text) -> emits Q (print_ text).
Proof. intros Hev c. exists [EvPrint text]. simpl. auto. Qed.

Lemma emits_on_session {A} (method : string) (call : M A) :
  emits Q call -> emits Q (on_session method call).
Proof.
  intros Hcall c. unfold on_session. destruct (session c).
  - apply Hcall.
  - exists []. simpl. rewrite app_nil_r. auto.
Qed.

Lemma emits_set_session : emits Q set_session.
Proof. intro c. exists []. simpl. rewrite app_nil_r. auto. Qed.

Lemma emits_enter (r : resource) :
  Q (EvEnter r) -> emits Q (enter_async_context W r).
Proof.
  intros Hev c. unfold enter_async_context. exists [EvEnter r].
  destruct (w_enter W (history c) r); simpl; auto.
Qed.

Hypothesis Q_print : forall text, Q (EvPrint text).
Hypothesis Q_list_tools : Q EvListTools.
Hypothesis Q_call_tool : forall name args, Q (EvCallTool name args).

Lemma emits_list_tools : emits Q (list_tools W).
Proof. apply emits_on_session, emits_ask, Q_list_tools. Qed.

Lemma emits_run_call (call : pyval) : emits Q (run_call W call).
Proof.
  unfold run_call. apply emits_bind; [apply emits_lift|].
  intros [name args].
  apply emits_bind; [apply emits_print, Q_print|]. intros _.
  apply emits_bind; [apply emits_on_session, emits_ask, Q_call_tool|]. intros result.
  apply emits_bind; [apply emits_lift|]. intros text.
  apply emits_print, Q_print.
Qed.

Lemma emits_run_calls (calls : list pyval) : emits Q (run_calls W calls).
Proof.
  induction calls as [|call rest IH]; simpl.
  - apply emits_ret.
  - apply emits_bind; [apply emits_run_call|]. intros _. exact IH.
Qed.

Lemma emits_process_query (query : str) :
  (forall tools, Q (EvPost ollama_url headers (request_data query tools))) ->
  emits Q (process_query W query).
Proof.
  intro Q_post. unfold process_query.
  apply emits_bind; [apply emits_list_tools|]. intros tools.
  apply emits_try_except.
  - unfold answer, call_ollama, post.
    apply emits_bind.
    + apply emits_bind; [apply emits_ask, Q_post|]. intros response.
      apply emits_lift.
    + intros [| | | | |calls|]; try (apply emits_print, Q_print).
      apply emits_run_calls.
  - intros e. apply emits_print, Q_print.
Qed.

End Emits.

(* ===================================================================== *)
(** ** The Dispatch Loop: running a batch of tool calls *)
(* ===================================================================== *)

Lemma calls_of_app (a b : trace) : calls_of (a ++ b) = calls_of a ++ calls_of b.
Proof.
  induction a as [|ev a IH]; simpl; [reflexivity|].
  destruct ev; simpl; rewrite IH; reflexivity.
Qed.

Lemma resolve_call_resolves (W : World) (call : pyval) (na : pyval * pyval) :
  resolve_call W call = Ok na -> resolves_to W call na.
Proof.
  unfold resolve_call, resolves_to.
  destruct (resolve_name call) as [name|e]; simpl; [|discriminate].
  destruct (resolve_args_raw call) as [raw|e]; simpl; [|discriminate].
  intro H. exists raw.
  destruct (decode_args W raw) as [args|e] eqn:Hdec; simpl in H; [|discriminate].
  injection H as <-. simpl. repeat split.
  unfold decoded. destruct raw; simpl in Hdec; congruence.
Qed.

(** An entry whose argument string the decoder rejects stops before the
    notice is printed and before anything is invoked. *)
Lemma malformed_arguments_abort (W : World) (call name : pyval) (s : str)
      (e : exn) (c : client) :
  resolve_name call = Ok name ->
  resolve_args_raw call = Ok (PStr s) ->
  w_json_loads W s = Raise e ->
  run_call W call c = (Raise e, c).
Proof.
  intros Hname Hraw Hdec. unfold run_call, bind, lift, resolve_call.
  rewrite Hname, Hraw. simpl. rewrite Hdec. reflexivity.
Qed.

(** One entry adds at most one invocation, the one it resolves to, and
    adds it whenever it completes. *)
Lemma run_call_invokes (W : World) (call : pyval) (c : client) :
  exists invoked,
    calls_of (history (snd (run_call W call c))) = calls_of (history c) ++ invoked
    /\ ((invoked = [] /\ exists e, fst (run_call W call c) = Raise e)
        \/ (exists na, invoked = [na] /\ resolve_call W call = Ok na)).
Proof.
  unfold run_call, bind, lift.
  destruct (resolve_call W call) as [[name args]|e] eqn:Hres.
  - unfold print_ at 1. unfold call_tool, on_session. simpl.
    destruct (session c) eqn:Hs.
    + exists [(name, args)]. split; [|right; exists (name, args); auto].
      unfold ask. simpl.
      destruct (w_call_tool W _ name args) as [result|e]; simpl.
      * destruct (result_text W result) as [text|e]; simpl;
          rewrite ?calls_of_app; simpl; rewrite ?app_nil_r; reflexivity.
      * rewrite !calls_of_app. simpl. now rewrite app_nil_r.
    + exists []. simpl. rewrite calls_of_app. simpl. split; [reflexivity|].
      left. split; [reflexivity|]. eexists. reflexivity.
  - exists []. simpl. rewrite app_nil_r. split; [reflexivity|].
    left. split; [reflexivity|]. eexists. reflexivity.
Qed.

Lemma run_calls_invokes_prefix (W : World) (calls : list pyval) (c : client) :
  exists done rest invoked,
    calls = done ++ rest
    /\ calls_of (history (snd (run_calls W calls c))) = calls_of (history c) ++ invoked
    /\ Forall2 (resolves_to W) done invoked
    /\ (fst (run_calls W calls c) = Ok tt -> rest = []).
Proof.
  revert c. induction calls as [|call calls IH]; intro c.
  - exists [], [], []. simpl. rewrite app_nil_r. auto.
  - simpl. unfold bind.
    destruct (run_call_invokes W call c) as [inv1 [Hinv1 Hcase]].
    destruct (run_call W call c) as [[[]|e] c1] eqn:Hrun; simpl in *.
    + destruct Hcase as [[_ [e He]]|[na [-> Hna]]]; [discriminate|].
      destruct (IH c1) as [done [rest [inv2 [Hsplit [Hinv2 [Hall Hok]]]]]].
      exists (call :: done), rest, (na :: inv2). repeat split.
      * simpl. now rewrite Hsplit.
      * rewrite Hinv2, Hinv1, <- app_assoc. reflexivity.
      * constructor; [now apply resolve_call_resolves|exact Hall].
      * exact Hok.
    + destruct Hcase as [[-> _]|[na [-> Hna]]].
      * exists [], (call :: calls), []. repeat split; auto. discriminate.
      * exists [call], calls, [na]. repeat split; auto.
        -- constructor; [now apply resolve_call_resolves|constructor].
        -- discriminate.
Qed.

Lemma process_query_runs_calls (W : World) (query : str) (c : client)
      (tools : list Tool) (response : Response) (calls : list pyval) :
  session c = true ->
  w_list_tools W (history c) = Ok tools ->
  w_post W (history c ++ [EvListTools])
         (request_data query (available_tools_of tools)) = Ok response ->
  read_response response = Ok (PList calls) ->
  process_query W query c =
  try_except (fun c2 => run_calls W calls c2) report_ollama_error
    (log (EvPost ollama_url headers (request_data query (available_tools_of tools)))
         (log EvListTools c)).
Proof.
  intros Hs Htools Hpost Hread.
  unfold process_query, bind at 1, list_tools, on_session, ask.
  rewrite Hs, Htools.
  unfold try_except, answer, bind at 1.
  rewrite (call_ollama_reads W query (available_tools_of tools) (log EvListTools c) Hpost).
  rewrite Hread. reflexivity.
Qed.

(** The loop over a batch, entry by entry: either the body returns on
    every entry, or it returns on the entries [before] some [call], raises
    on [call], and the loop ends there with that exception; the entries
    invoked are the ones before the raise, and [call] itself when it raised
    only after being invoked. *)
Lemma run_calls_stops_at_first_raise (W : World) (calls : list pyval) (c : client) :
  exists done rest invoked,
    calls = done ++ rest
    /\ calls_of (history (snd (run_calls W calls c))) = calls_of (history c) ++ invoked
    /\ Forall2 (resolves_to W) done invoked
    /\ ((completed W calls c = Some (snd (run_calls W calls c))
         /\ fst (run_calls W calls c) = Ok tt
         /\ rest = [])
        \/ (exists before call later c1 e,
               calls = before ++ call :: later
               /\ completed W before c = Some c1
               /\ run_call W call c1 = (Raise e, snd (run_calls W calls c))
               /\ fst (run_calls W calls c) = Raise e
               /\ ((done = before /\ rest = call :: later)
                   \/ (done = before ++ [call] /\ rest = later)))).
Proof.
  revert c. induction calls as [|call calls IH]; intro c.
  - exists [], [], []. simpl. rewrite app_nil_r.
    repeat split; auto.
  - assert (Hstep : run_calls W (call :: calls) c =
                    match run_call W call c with
                    | (Ok _, c1) => run_calls W calls c1
                    | (Raise e, c1) => (Raise e, c1)
                    end) by reflexivity.
    rewrite Hstep. clear Hstep.
    destruct (run_call_invokes W call c) as [inv1 [Hinv1 Hcase]].
    destruct (run_call W call c) as [[[]|e] c1] eqn:Hrun; cbn [fst snd] in *.
    + destruct Hcase as [[_ [e He]]|[na [-> Hna]]]; [discriminate|].
      destruct (IH c1) as [done [rest [inv2 [Hsplit [Hinv2 [Hall Hstop]]]]]].
      exists (call :: done), rest, (na :: inv2).
      split; [simpl; now rewrite Hsplit|].
      split; [rewrite Hinv2, Hinv1, <- app_assoc; reflexivity|].
      split; [constructor; [now apply resolve_call_resolves|exact Hall]|].
      destruct Hstop as [[Hcompleted [Hok Hrest]]
                        |[before [failing [later [c2 [e [Hcalls [Hbefore
                          [Hraise [Hfst Hdone]]]]]]]]]].
      * left. simpl. rewrite Hrun. auto.
      * right. exists (call :: before), failing, later, c2, e.
        split; [simpl; now rewrite Hcalls|].
        split; [simpl; now rewrite Hrun|].
        split; [exact Hraise|]. split; [exact Hfst|].
        destruct Hdone as [[-> ->]|[-> ->]]; [left|right]; auto.
    + destruct Hcase as [[-> _]|[na [-> Hna]]].
      * exists [], (call :: calls), []. cbn [fst snd].
        split; [reflexivity|]. split; [exact Hinv1|].
        split; [constructor|].
        right. exists [], call, calls, c, e. simpl. repeat split; auto.
      * exists [call], calls, [na]. cbn [fst snd].
        split; [reflexivity|]. split; [exact Hinv1|].
        split; [constructor; [now apply resolve_call_resolves|constructor]|].
        right. exists [], call, calls, c, e. simpl. repeat split; auto.
Qed.

(** C1, amended: the entries of a tool-call list are taken in the order
    received and each is invoked at most once, with string arguments
    decoded first; the run stops at the first entry that raises, so the
    invoked tools are those of an initial segment of the list, all of it
    when nothing raises.  An error of class [Exception], such as a
    malformed argument string, is caught and printed and the query returns
    normally; the entries after it are not invoked.

    In the statement [done] are the entries invoked and [rest] the ones
    that are not.  The run ends in one of two ways, told by the loop body
    [run_call] alone: the body returned on every entry, and then nothing is
    left; or it returned on the entries [before] some entry, raised on that
    entry, and the batch ended there with that exception, the entry itself
    counting as invoked only when it raised after the invocation. *)
Theorem tool_calls_run_in_order_until_one_fails
        (W : World) (query : str) (c : client) (tools : list Tool)
        (response : Response) (calls : list pyval) :
  session c = true ->
  w_list_tools W (history c) = Ok tools ->
  w_post W (history c ++ [EvListTools])
         (request_data query (available_tools_of tools)) = Ok response ->
  read_response response = Ok (PList calls) ->
  let start :=
    log (EvPost ollama_url headers (request_data query (available_tools_of tools)))
        (log EvListTools c) in
  let batch := run_calls W calls start in
  let r := process_query W query c in
  exists done rest invoked,
    calls = done ++ rest
    /\ calls_of (history (snd r)) = calls_of (history c) ++ invoked
    /\ Forall2 (resolves_to W) done invoked
    /\ (fst batch = Ok tt -> rest = [] /\ r = batch)
    /\ (forall e, fst batch = Raise e -> is_Exception (exn_cls e) = true ->
          r = (Ok tt,
               log (EvPrint (u "Errore durante la chiamata a Ollama: " ++ exn_str e))
                   (snd batch)))
    /\ (forall e, fst batch = Raise e -> is_Exception (exn_cls e) = false ->
          r = batch)
    /\ ((completed W calls start = Some (snd batch)
         /\ fst batch = Ok tt
         /\ rest = [])
        \/ (exists before call later c1 e,
               calls = before ++ call :: later
               /\ completed W before start = Some c1
               /\ run_call W call c1 = (Raise e, snd batch)
               /\ fst batch = Raise e
               /\ ((done = before /\ rest = call :: later)
                   \/ (done = before ++ [call] /\ rest = later))))
    /\ ((forall call c1, In call calls ->
                         exists c2, run_call W call c1 = (Ok tt, c2)) ->
        fst batch = Ok tt /\ rest = [] /\ r = batch).
Proof.
  intros Hs Htools Hpost Hread start batch r.
  assert (Hr : r = try_except (fun c2 => run_calls W calls c2) report_ollama_error
                 start)
    by (apply process_query_runs_calls with (response := response); assumption).
  destruct (run_calls_stops_at_first_raise W calls start)
    as [done [rest [invoked [Hsplit [Hinv [Hall Hstop]]]]]].
  fold batch in Hinv, Hstop.
  assert (Hstart : calls_of (history start) = calls_of (history c)).
  { unfold start. simpl. rewrite !calls_of_app. simpl. now rewrite !app_nil_r. }
  assert (Hsame : calls_of (history (snd r)) = calls_of (history (snd batch))).
  { rewrite Hr. unfold try_except. fold batch.
    destruct batch as [[[]|e] c3]; simpl; [reflexivity|].
    destruct (is_Exception (exn_cls e)); simpl; [|reflexivity].
    rewrite calls_of_app. simpl. now rewrite app_nil_r. }
  assert (Hreturns : fst batch = Ok tt -> rest = [] /\ r = batch).
  { intro Hok. split.
    - destruct Hstop as [[_ [_ Hrest]]|[before [call [later [c1 [e [_ [_ [_ [Hfst _]]]]]]]]]];
        [exact Hrest|].
      rewrite Hfst in Hok. discriminate.
    - rewrite Hr. unfold try_except. fold batch.
      destruct batch as [[[]|e] c3]; simpl in *; [reflexivity|discriminate]. }
  exists done, rest, invoked.
  split; [exact Hsplit|].
  split; [now rewrite Hsame, Hinv, Hstart|].
  split; [exact Hall|].
  split; [exact Hreturns|].
  split; [|split; [|split]].
  - intros e He Hcls. rewrite Hr. unfold try_except. fold batch.
    destruct batch as [[[]|e'] c3]; simpl in *; [discriminate|].
    injection He as ->. rewrite Hcls. reflexivity.
  - intros e He Hcls. rewrite Hr. unfold try_except. fold batch.
    destruct batch as [[[]|e'] c3]; simpl in *; [discriminate|].
    injection He as ->. rewrite Hcls. reflexivity.
  - exact Hstop.
  - intro Hnone.
    destruct Hstop as [[_ [Hok Hrest]]
                      |[before [call [later [c1 [e [Hcalls [_ [Hraise _]]]]]]]]].
    + split; [exact Hok|]. now apply Hreturns.
    + exfalso. destruct (Hnone call c1) as [c2 Hc2].
      * rewrite Hcalls. apply in_or_app. right. now left.
      * rewrite Hc2 in Hraise. discriminate.
Qed.

Lemma tool_calls_run_in_order_until_one_fails_witness :
  exists done rest invoked,
    Sample.three_calls = done ++ rest
    /\ calls_of (history (snd (process_query Sample.batch_world (u "hi")
                                             (Sample.connected []))))
       = invoked
    /\ Forall2 (resolves_to Sample.batch_world) done invoked.
Proof.
  destruct (tool_calls_run_in_order_until_one_fails
              Sample.batch_world (u "hi") (Sample.connected [])
              (tools := [Sample.get_weather])
              (response := Sample.batch_response)
              (calls := Sample.three_calls)
              eq_refl eq_refl eq_refl eq_refl)
    as [done [rest [invoked [Hsplit [Hinv [Hall _]]]]]].
  exists done, rest, invoked. auto.
Defined.

(** C1 as stated fails: of three listed calls, the second with a
    malformed argument string, only the first is invoked, although the
    third resolves; the batch is not invoked entry by entry. *)
Lemma malformed_call_stops_the_batch :
  fst (call_ollama Sample.batch_world (u "hi")
                   (available_tools_of [Sample.get_weather])
                   (log EvListTools (Sample.connected [])))
  = Ok (PList Sample.three_calls)
  /\ calls_of (history (snd (process_query Sample.batch_world (u "hi")
                                           (Sample.connected []))))
     = [(PStr (u "get_weather"), Sample.rome)]
  /\ resolve_call Sample.batch_world (nth 2 Sample.three_calls PNone)
     = Ok (PStr (u "get_news"), PDict [])
  /\ ~ (exists invoked,
          Forall2 (resolves_to Sample.batch_world) Sample.three_calls invoked
          /\ calls_of (history (snd (process_query Sample.batch_world (u "hi")
                                                   (Sample.connected []))))
             = invoked).
Proof.
  split; [reflexivity|]. split; [reflexivity|]. split; [reflexivity|].
  intros [invoked [Hall Hinv]].
  apply Forall2_length in Hall. rewrite <- Hinv in Hall.
  vm_compute in Hall. discriminate.
Qed.

(* ===================================================================== *)
(** ** The Dispatch Loop: reading a line *)
(* ===================================================================== *)

Lemma lstrip_head (s : str) (ch : N) (rest : str) :
  lstrip s = ch :: rest -> is_space ch = false.
Proof.
  induction s as [|x s IH]; simpl; [discriminate|].
  destruct (is_space x) eqn:Hx; [exact IH|].
  intro H. injection H as <- _. exact Hx.
Qed.

Lemma lstrip_suffix (s : str) : exists dropped, s = dropped ++ lstrip s.
Proof.
  induction s as [|x s [dropped IH]]; simpl.
  - now exists [].
  - destruct (is_space x).
    + exists (x :: dropped). simpl. now rewrite <- IH.
    + now exists [].
Qed.

Lemma rstrip_prefix (s : str) : exists dropped, s = rstrip s ++ dropped.
Proof.
  destruct (lstrip_suffix (rev s)) as [dropped H].
  exists (rev dropped). unfold rstrip.
  rewrite <- rev_app_distr, <- H. now rewrite rev_involutive.
Qed.

Lemma strip_trimmed (s : str) : trimmed (strip s).
Proof.
  unfold trimmed, strip. split.
  - intros ch rest H.
    destruct (rstrip_prefix (lstrip s)) as [dropped Hd].
    rewrite H in Hd. simpl in Hd.
    exact (lstrip_head _ Hd).
  - intros front ch H. unfold rstrip in H.
    apply (f_equal (@rev N)) in H.
    rewrite rev_involutive, rev_app_distr in H. simpl in H.
    exact (lstrip_head _ H).
Qed.

Lemma iteration_after_read (W : World) (c : client) (line : str) :
  w_input W (history c) = Ok line ->
  iteration W c =
  try_except
    (if str_eqb (w_lower W (strip line)) quit then ret Break
     else process_query W (strip line) ;;; ret Continue)
    report_error (log (EvInput prompt (Ok line)) c).
Proof.
  intro Hin. unfold iteration, try_except, read_and_process, bind at 1, input_.
  rewrite Hin. reflexivity.
Qed.

Lemma serves_query (W : World) (query : str) :
  emits (serves query) (process_query W query).
Proof.
  apply emits_process_query; simpl; auto.
  intro tools. repeat split. now exists tools.
Qed.

Lemma iteration_serves_the_line (W : World) (c : client) (line : str) :
  w_input W (history c) = Ok line ->
  exists evs,
    history (snd (iteration W c)) = history c ++ EvInput prompt (Ok line) :: evs
    /\ Forall (serves (strip line)) evs.
Proof.
  intro Hin. rewrite (iteration_after_read W c Hin).
  assert (Hem : emits (serves (strip line))
                  (try_except
                     (if str_eqb (w_lower W (strip line)) quit then ret Break
                      else process_query W (strip line) ;;; ret Continue)
                     report_error)).
  { apply emits_try_except.
    - destruct (str_eqb (w_lower W (strip line)) quit).
      + apply emits_ret.
      + apply emits_bind; [apply serves_query|]. intros _. apply emits_ret.
    - intro e. unfold report_error.
      apply emits_bind; [apply emits_print; exact I|]. intros _. apply emits_ret. }
  destruct (Hem (log (EvInput prompt (Ok line)) c)) as [evs [Hevs Hall]].
  exists evs. rewrite Hevs. simpl. rewrite <- app_assoc. auto.
Qed.

(** C10: the line read is stripped first; the stripped text, which has
    no whitespace at either end, is what is lowered and compared with the
    quit sentinel and, when it is not the sentinel, what is processed as
    the query, so every model request of the iteration is the one built
    for the stripped text. *)
Theorem query_is_the_stripped_line (W : World) (c : client) (line : str) :
  w_input W (history c) = Ok line ->
  trimmed (strip line)
  /\ read_and_process W c =
     (if str_eqb (w_lower W (strip line)) quit then ret Break
      else process_query W (strip line) ;;; ret Continue)
       (log (EvInput prompt (Ok line)) c)
  /\ exists evs,
       history (snd (iteration W c)) = history c ++ EvInput prompt (Ok line) :: evs
       /\ Forall (serves (strip line)) evs.
Proof.
  intro Hin. split; [apply strip_trimmed|]. split.
  - unfold read_and_process, bind at 1, input_. rewrite Hin. reflexivity.
  - now apply iteration_serves_the_line.
Qed.

Lemma query_is_the_stripped_line_witness :
  trimmed (strip (u "  hi "))
  /\ strip (u "  hi ") = u "hi"
  /\ exists evs,
       history (snd (iteration Sample.hello_world (Sample.connected [])))
       = EvInput prompt (Ok (u "  hi ")) :: evs
       /\ Forall (serves (u "hi")) evs.
Proof.
  destruct (query_is_the_stripped_line Sample.hello_world (Sample.connected [])
              (line := u "  hi ") eq_refl) as [Htrim [_ Hevs]].
  split; [exact Htrim|]. split; [reflexivity|]. exact Hevs.
Defined.

(* ===================================================================== *)
(** ** The Model Gateway: the conversation sent *)
(* ===================================================================== *)

Lemma fresh_after_serving (query : str) (evs tail : trace) :
  Forall (serves query) evs ->
  fresh_requests query tail ->
  fresh_requests query (evs ++ tail).
Proof.
  intros Hall Htail. induction Hall as [|ev evs Hev _ IH]; simpl; [exact Htail|].
  destruct ev; simpl in *; try exact IH.
  - contradiction.
  - destruct Hev as [_ [_ [tools ->]]]. simpl. split; [reflexivity|exact IH].
Qed.

Lemma iteration_fresh (W : World) (c : client) :
  exists evs,
    history (snd (iteration W c)) = history c ++ evs
    /\ forall tail, (forall q, fresh_requests q tail) ->
                    forall q, fresh_requests q (evs ++ tail).
Proof.
  destruct (w_input W (history c)) as [line|e] eqn:Hin.
  - destruct (iteration_serves_the_line W c Hin) as [evs [Hevs Hall]].
    exists (EvInput prompt (Ok line) :: evs). split; [exact Hevs|].
    intros tail Htail q. simpl. apply fresh_after_serving; auto.
  - unfold iteration, try_except, read_and_process, bind, input_.
    rewrite Hin. destruct (is_Exception (exn_cls e)); simpl.
    + exists [EvInput prompt (Raise e); EvPrint ([10%N] ++ u "Errore: " ++ exn_str e)].
      rewrite <- app_assoc. split; [reflexivity|]. intros tail Htail q. apply Htail.
    + exists [EvInput prompt (Raise e)]. split; [reflexivity|].
      intros tail Htail q. apply Htail.
Qed.

Lemma while_true_fresh (W : World) (fuel : nat) (c : client) :
  exists evs,
    history (snd (while_true W fuel c)) = history c ++ evs
    /\ forall q, fresh_requests q evs.
Proof.
  revert c. induction fuel as [|fuel IH]; intro c; simpl.
  - exists []. rewrite app_nil_r. simpl. auto.
  - destruct (iteration_fresh W c) as [evs [Hevs Hfresh]].
    destruct (iteration W c) as [[[|]|e] c1]; simpl in Hevs.
    + exists evs. split; [exact Hevs|]. intro q.
      rewrite <- (app_nil_r evs). apply Hfresh. simpl. auto.
    + destruct (IH c1) as [evs2 [Hevs2 Hfresh2]].
      exists (evs ++ evs2). rewrite Hevs2, Hevs, app_assoc. split; [reflexivity|].
      intro q. now apply Hfresh.
    + exists evs. split; [exact Hevs|]. intro q.
      rewrite <- (app_nil_r evs). apply Hfresh. simpl. auto.
Qed.

(** C8: the request body built for a query holds the conversation of
    exactly two messages, the fixed system prompt and then that query; the
    request a gateway call sends is that body whatever the client's history
    is; and through any run of the chat loop every model request carries
    the conversation of the line read last, with nothing of earlier turns. *)
Theorem every_request_has_two_messages (W : World) :
  (forall query tools,
      exists data,
        request_data query tools = PDict data
        /\ dict_find (u "messages") data = Some (conversation query)
        /\ conversation query =
           PList [ PDict [(u "role", PStr (u "system")); (u "content", PStr system_prompt)];
                   PDict [(u "role", PStr (u "user")); (u "content", PStr query)] ])
  /\ (forall query tools c,
        snd (call_ollama W query tools c) =
        log (EvPost ollama_url headers (request_data query tools)) c)
  /\ (forall fuel c,
        exists evs,
          history (snd (chat_loop W fuel c)) = history c ++ evs
          /\ forall q, fresh_requests q evs).
Proof.
  split; [|split].
  - intros query tools. eexists. split; [reflexivity|]. split; reflexivity.
  - intros query tools c. unfold call_ollama, bind, post, ask, lift.
    destruct (w_post W (history c) (request_data query tools)); reflexivity.
  - intros fuel c. unfold chat_loop, bind, print_. simpl.
    match goal with |- context [while_true W fuel ?c1] =>
      destruct (while_true_fresh W fuel c1) as [evs [Hevs Hfresh]];
      exists ([EvPrint ([10%N] ++ u "MCP Client Started!");
               EvPrint (u "Type your queries or 'quit' to exit.")] ++ evs)
    end.
    rewrite Hevs. simpl. rewrite <- !app_assoc. simpl.
    split; [reflexivity|]. exact Hfresh.
Qed.

(* ===================================================================== *)
(** ** The Dispatch Loop: errors and the quit sentinel *)
(* ===================================================================== *)

Lemma try_except_catches {A} (body : M A) (handler : exn -> M A)
      (c c' : client) (e : exn) :
  body c = (Raise e, c') ->
  is_Exception (exn_cls e) = true ->
  try_except body handler c = handler e c'.
Proof. intros Hb He. unfold try_except. now rewrite Hb, He. Qed.

Lemma iteration_raises_no_Exception (W : World) (c c' : client) (e : exn) :
  iteration W c = (Raise e, c') -> is_Exception (exn_cls e) = false.
Proof.
  unfold iteration, try_except.
  destruct (read_and_process W c) as [[f|e0] c1]; [discriminate|].
  destruct (is_Exception (exn_cls e0)) eqn:He0.
  - unfold report_error, bind, print_, ret. discriminate.
  - intro H. injection H as <- _. exact He0.
Qed.

Lemma iteration_breaks_on_quit (W : World) (c : client) (line : str) :
  w_input W (history c) = Ok line ->
  str_eqb (w_lower W (strip line)) quit = true ->
  iteration W c = (Ok Break, log (EvInput prompt (Ok line)) c).
Proof.
  intros Hin Hquit. rewrite (iteration_after_read W c Hin).
  unfold try_except. now rewrite Hquit.
Qed.

Lemma iteration_breaks_only_on_quit (W : World) (c c' : client) :
  iteration W c = (Ok Break, c') ->
  exists line,
    w_input W (history c) = Ok line
    /\ str_eqb (w_lower W (strip line)) quit = true
    /\ c' = log (EvInput prompt (Ok line)) c.
Proof.
  destruct (w_input W (history c)) as [line|e] eqn:Hin.
  - rewrite (iteration_after_read W c Hin). unfold try_except.
    destruct (str_eqb (w_lower W (strip line)) quit) eqn:Hquit.
    + simpl. intro H. injection H as <-. now exists line.
    + unfold bind.
      destruct (process_query W (strip line) _) as [[[]|e] c1].
      * simpl. discriminate.
      * destruct (is_Exception (exn_cls e)); [|discriminate].
        unfold report_error, bind, print_, ret. discriminate.
  - unfold iteration, try_except, read_and_process, bind, input_.
    rewrite Hin. destruct (is_Exception (exn_cls e)); [|discriminate].
    unfold report_error, bind, print_, ret. discriminate.
Qed.

Lemma while_true_ends_on_quit (W : World) (fuel : nat) (c c' : client) :
  while_true W fuel c = (Some (Ok tt), c') ->
  exists before line,
    history c' = before ++ [EvInput prompt (Ok line)]
    /\ str_eqb (w_lower W (strip line)) quit = true.
Proof.
  revert c. induction fuel as [|fuel IH]; intro c; simpl; [discriminate|].
  destruct (iteration W c) as [[[|]|e] c1] eqn:Hit.
  - intro H. injection H as <-.
    destruct (iteration_breaks_only_on_quit W c Hit) as [line [_ [Hquit ->]]].
    exists (history c), line. auto.
  - apply IH.
  - discriminate.
Qed.

Lemma while_true_raises_no_Exception (W : World) (fuel : nat) (c c' : client)
      (e : exn) :
  while_true W fuel c = (Some (Raise e), c') -> is_Exception (exn_cls e) = false.
Proof.
  revert c. induction fuel as [|fuel IH]; intro c; simpl; [discriminate|].
  destruct (iteration W c) as [[[|]|e0] c1] eqn:Hit.
  - discriminate.
  - apply IH.
  - intro H. injection H as <- _. exact (iteration_raises_no_Exception W c Hit).
Qed.

Lemma iteration_starts_by_reading (W : World) (c : client) :
  exists evs,
    history (snd (iteration W c)) =
    history c ++ EvInput prompt (w_input W (history c)) :: evs.
Proof.
  destruct (w_input W (history c)) as [line|e] eqn:Hin.
  - destruct (iteration_serves_the_line W c Hin) as [evs [Hevs _]].
    now exists evs.
  - unfold iteration, try_except, read_and_process, bind, input_.
    rewrite Hin. destruct (is_Exception (exn_cls e)); simpl.
    + eexists. rewrite <- app_assoc. reflexivity.
    + now exists [].
Qed.

(** C4: an exception of class [Exception] raised while a query is
    answered is caught by the query's handler, which prints its text and
    returns; one raised elsewhere in the iteration is caught by the loop's
    handler, which prints its text and continues.  So no such exception
    leaves an iteration, the loop goes on to read the next line, and the
    loop ends normally only after reading the quit sentinel; what can
    end it otherwise is outside [Exception] (an interruption). *)
Theorem processing_errors_never_end_the_session (W : World) :
  (forall query tools c c' e,
      answer W query tools c = (Raise e, c') ->
      is_Exception (exn_cls e) = true ->
      try_except (answer W query tools) report_ollama_error c =
      (Ok tt, log (EvPrint (u "Errore durante la chiamata a Ollama: " ++ exn_str e)) c'))
  /\ (forall c c' e,
        read_and_process W c = (Raise e, c') ->
        is_Exception (exn_cls e) = true ->
        iteration W c =
        (Ok Continue, log (EvPrint ([10%N] ++ u "Errore: " ++ exn_str e)) c'))
  /\ (forall c c' e,
        iteration W c = (Raise e, c') -> is_Exception (exn_cls e) = false)
  /\ (forall fuel c c',
        iteration W c = (Ok Continue, c') ->
        while_true W (S fuel) c = while_true W fuel c'
        /\ exists evs,
             history (snd (iteration W c')) =
             history c' ++ EvInput prompt (w_input W (history c')) :: evs)
  /\ (forall fuel c c',
        while_true W fuel c = (Some (Ok tt), c') ->
        exists before line,
          history c' = before ++ [EvInput prompt (Ok line)]
          /\ str_eqb (w_lower W (strip line)) quit = true)
  /\ (forall fuel c c' e,
        while_true W fuel c = (Some (Raise e), c') ->
        is_Exception (exn_cls e) = false).
Proof.
  split; [|split; [|split; [|split; [|split]]]].
  - intros query tools c c' e Hraise He.
    now rewrite (try_except_catches _ _ _ Hraise He).
  - intros c c' e Hraise He. unfold iteration.
    now rewrite (try_except_catches _ _ _ Hraise He).
  - intros c c' e. apply iteration_raises_no_Exception.
  - intros fuel c c' Hit. split.
    + simpl. now rewrite Hit.
    + apply iteration_starts_by_reading.
  - intros fuel c c'. apply while_true_ends_on_quit.
  - intros fuel c c' e. apply while_true_raises_no_Exception.
Qed.

(* ===================================================================== *)
(** ** The session's lifetime: cleanup *)
(* ===================================================================== *)

Section LoopEmits.

Variable W : World.
Variable Q : event -> Prop.
Hypothesis Q_other : forall ev, is_aclose ev = false -> Q ev.







End LoopEmits.




Lemma processing_errors_never_end_the_session_witness :
  try_except (answer Sample.error_world (u "hi") (PList [])) report_ollama_error
             (Sample.connected [])
  = (Ok tt,
     log (EvPrint (u "Errore durante la chiamata a Ollama: "
                   ++ u "Errore Ollama: 500 - internal error"))
         (log (EvPost ollama_url headers (request_data (u "hi") (PList [])))
              (Sample.connected []))).
Proof.
  destruct (processing_errors_never_end_the_session Sample.error_world)
    as [Hinner _].
  apply (Hinner (u "hi") (PList []) (Sample.connected [])
           (log (EvPost ollama_url headers (request_data (u "hi") (PList [])))
                (Sample.connected []))
           (mkExn Exception_ (u "Errore Ollama: 500 - internal error")));
    reflexivity.
Defined.

(** At end of file [input] raises [EOFError], which the loop's handler
    catches like any other: the loop never ends. *)
Lemma loop_spins_when_input_fails (W : World) (e : exn) :
  (forall t, w_input W t = Raise e) ->
  is_Exception (exn_cls e) = true ->
  forall fuel c, fst (while_true W fuel c) = None.
Proof.
  intros Hin He. induction fuel as [|fuel IH]; intro c; simpl; [reflexivity|].
  unfold iteration, try_except, read_and_process, bind at 1, input_.
  rewrite Hin, He. simpl. apply IH.
Qed.

(* ===================================================================== *)
(** ** The end-to-end scenarios of the specification *)
(* ===================================================================== *)

(** Scenario A: a requested [get_weather] call with string arguments is
    decoded, invoked once and its text printed. *)
Example scenario_tool_call :
  fst (main Sample.weather_world 2 Sample.argv []) = Some (Ok tt)
  /\ calls_of (history (snd (main Sample.weather_world 2 Sample.argv [])))
     = [(PStr (u "get_weather"), Sample.rome)]
  /\ nth 4 (prints_of (history (snd (main Sample.weather_world 2 Sample.argv [])))) []
     = result_notice Sample.weather_world (PStr (u "get_weather")) (u "Sunny").
Proof. repeat split; vm_compute; reflexivity. Qed.

(** Scenario B: a reply with content only is printed as the model's text
    and no tool is invoked. *)
Example scenario_text_reply :
  fst (main Sample.hello_world 2 Sample.argv []) = Some (Ok tt)
  /\ calls_of (history (snd (main Sample.hello_world 2 Sample.argv []))) = []
  /\ nth 3 (prints_of (history (snd (main Sample.hello_world 2 Sample.argv [])))) []
     = [10; 129302]%N ++ u " Modello: Hello!".
Proof. repeat split; vm_compute; reflexivity. Qed.

(** Scenario C: HTTP 500 is reported with the status and the body, and
    the loop prompts again. *)
Example scenario_gateway_error :
  fst (main Sample.error_world 2 Sample.argv []) = Some (Ok tt)
  /\ nth 3 (prints_of (history (snd (main Sample.error_world 2 Sample.argv [])))) []
     = u "Errore durante la chiamata a Ollama: Errore Ollama: 500 - internal error"
  /\ List.length (filter Sample.is_input
                    (history (snd (main Sample.error_world 2 Sample.argv [])))) = 2%nat.
Proof. repeat split; vm_compute; reflexivity. Qed.

(** Scenario D: [QUIT] with trailing spaces ends the loop and the exit
    stack is closed once. *)
Example scenario_quit :
  fst (main Sample.hello_world 2 Sample.argv []) = Some (Ok tt)
  /\ filter is_aclose (history (snd (main Sample.hello_world 2 Sample.argv [])))
     = [EvAclose [ClientSessionCtx; StdioClient (u "python") [u "tool_server.py"]]]
  /\ last (history (snd (main Sample.hello_world 2 Sample.argv []))) EvInitialize
     = EvAclose [ClientSessionCtx; StdioClient (u "python") [u "tool_server.py"]].
Proof. repeat split; vm_compute; reflexivity. Qed.

(** An entry whose [function] field is present but is not a mapping is
    outside both accepted shapes: resolving it raises. *)
Example function_must_be_a_mapping :
  resolve_name (PDict [(u "function", PNone); (u "name", PStr (u "get_weather"))])
  = Raise (no_attribute PNone "get").
Proof. reflexivity. Qed.

(* ===================================================================== *)
(** ** What a run leaves untouched *)
(* ===================================================================== *)

Section Keeps.

Variable W : World.
Variable X : Type.
Variable f : client -> X.
Hypothesis f_log : forall ev c, f (log ev c) = f c.

Lemma keeps_ret {A} (a : A) : keeps f (ret a).
Proof. intro c. reflexivity. Qed.

Lemma keeps_raise {A} (e : exn) : keeps f (@raise A e).
Proof. intro c. reflexivity. Qed.

Lemma keeps_lift {A} (o : outcome A) : keeps f (lift o).
Proof. intro c. reflexivity. Qed.

Lemma keeps_bind {A B} (m : M A) (k : A -> M B) :
  keeps f m -> (forall a, keeps f (k a)) -> keeps f (bind m k).
Proof.
  intros Hm Hk c. unfold bind. specialize (Hm c).
  destruct (m c) as [[a|e] c1]; simpl in Hm.
  - now rewrite Hk.
  - exact Hm.
Qed.

Lemma keeps_try_except {A} (body : M A) (handler : exn -> M A) :
  keeps f body -> (forall e, keeps f (handler e)) -> keeps f (try_except body handler).
Proof.
  intros Hb Hh c. unfold try_except. specialize (Hb c).
  destruct (body c) as [[a|e] c1]; simpl in Hb; [exact Hb|].
  destruct (is_Exception (exn_cls e)); [now rewrite Hh|exact Hb].
Qed.

Lemma keeps_ask {A} (ev : event) (oracle : trace -> outcome A) :
  keeps f (ask ev oracle).
Proof. intro c. apply f_log. Qed.

Lemma keeps_print (text : str) : keeps f (print_ text).
Proof. intro c. apply f_log. Qed.

Lemma keeps_on_session {A} (method : string) (call : M A) :
  keeps f call -> keeps f (on_session method call).
Proof.
  intros Hcall c. unfold on_session. destruct (session c); [apply Hcall|reflexivity].
Qed.

Lemma keeps_input (p : str) : keeps f (input_ W p).
Proof. intro c. apply f_log. Qed.

Lemma keeps_list_tools : keeps f (list_tools W).
Proof. apply keeps_on_session, keeps_ask. Qed.

Lemma keeps_run_call (call : pyval) : keeps f (run_call W call).
Proof.
  unfold run_call. apply keeps_bind; [apply keeps_lift|]. intros [name args].
  apply keeps_bind; [apply keeps_print|]. intros _.
  apply keeps_bind; [apply keeps_on_session, keeps_ask|]. intros result.
  apply keeps_bind; [apply keeps_lift|]. intros text. apply keeps_print.
Qed.

Lemma keeps_run_calls (calls : list pyval) : keeps f (run_calls W calls).
Proof.
  induction calls as [|call rest IH]; simpl; [apply keeps_ret|].
  apply keeps_bind; [apply keeps_run_call|]. intros _. exact IH.
Qed.

Lemma keeps_process_query (query : str) : keeps f (process_query W query).
Proof.
  unfold process_query. apply keeps_bind; [apply keeps_list_tools|]. intros tools.
  apply keeps_try_except.
  - unfold answer, call_ollama, post. apply keeps_bind.
    + apply keeps_bind; [apply keeps_ask|]. intros response. apply keeps_lift.
    + intros [| | | | |calls|]; try apply keeps_print. apply keeps_run_calls.
  - intro e. apply keeps_print.
Qed.

Lemma keeps_iteration : keeps f (iteration W).
Proof.
  unfold iteration. apply keeps_try_except.
  - unfold read_and_process. apply keeps_bind; [apply keeps_input|].
    intro line. simpl. destruct (str_eqb _ quit); [apply keeps_ret|].
    apply keeps_bind; [apply keeps_process_query|]. intros _. apply keeps_ret.
  - intro e. unfold report_error.
    apply keeps_bind; [apply keeps_print|]. intros _. apply keeps_ret.
Qed.

Lemma while_true_keeps (fuel : nat) (c : client) :
  f (snd (while_true W fuel c)) = f c.
Proof.
  revert c. induction fuel as [|fuel IH]; intro c; simpl; [reflexivity|].
  pose proof (keeps_iteration c) as Hit.
  destruct (iteration W c) as [[[|]|e] c1]; simpl in Hit; try exact Hit.
  now rewrite IH.
Qed.

Lemma chat_loop_keeps (fuel : nat) (c : client) :
  f (snd (chat_loop W fuel c)) = f c.
Proof.
  unfold chat_loop, bind, print_. simpl. rewrite while_true_keeps.
  now rewrite !f_log.
Qed.

End Keeps.

Section LoopEvents.

Variable W : World.
Variable Q : event -> Prop.
Hypothesis Q_print : forall text, Q (EvPrint text).
Hypothesis Q_input : forall p r, Q (EvInput p r).
Hypothesis Q_list_tools : Q EvListTools.
Hypothesis Q_call_tool : forall name args, Q (EvCallTool name args).
Hypothesis Q_post : forall query tools,
    Q (EvPost ollama_url headers (request_data query tools)).

Lemma iteration_emits : emits Q (iteration W).
Proof.
  unfold iteration. apply emits_try_except.
  - unfold read_and_process. apply emits_bind.
    + intro c. exists [EvInput prompt (w_input W (history c))]. simpl. auto.
    + intro line. simpl. destruct (str_eqb _ quit); [apply emits_ret|].
      apply emits_bind; [|intros _; apply emits_ret].
      apply emits_process_query; auto.
  - intro e. unfold report_error.
    apply emits_bind; [apply emits_print, Q_print|]. intros _. apply emits_ret.
Qed.

Lemma while_true_emits_events (fuel : nat) (c : client) :
  exists evs,
    history (snd (while_true W fuel c)) = history c ++ evs /\ Forall Q evs.
Proof.
  revert c. induction fuel as [|fuel IH]; intro c; simpl.
  - exists []. rewrite app_nil_r. auto.
  - destruct (iteration_emits c) as [evs [Hevs Hall]].
    destruct (iteration W c) as [[[|]|e] c1]; simpl in Hevs.
    + now exists evs.
    + destruct (IH c1) as [evs2 [Hevs2 Hall2]].
      exists (evs ++ evs2). rewrite Hevs2, Hevs, app_assoc.
      split; [reflexivity|]. apply Forall_app; auto.
    + now exists evs.
Qed.

Lemma chat_loop_emits_events (fuel : nat) (c : client) :
  exists evs,
    history (snd (chat_loop W fuel c)) = history c ++ evs /\ Forall Q evs.
Proof.
  unfold chat_loop, bind, print_. simpl.
  match goal with |- context [while_true W fuel ?c1] =>
    destruct (while_true_emits_events fuel c1) as [evs [Hevs Hall]];
    exists ([EvPrint ([10%N] ++ u "MCP Client Started!");
             EvPrint (u "Type your queries or 'quit' to exit.")] ++ evs)
  end.
  rewrite Hevs. simpl. rewrite <- !app_assoc. simpl. split; [reflexivity|].
  repeat (constructor; [apply Q_print|]). exact Hall.
Qed.

End LoopEvents.

(** X4: the chat loop works on the connection it was given: whatever
    is typed and answered, it never enters, initialises or closes a
    context, every request it sends goes to the one endpoint with the JSON
    content type, and the exit stack and the session are left as they
    were. *)
Theorem chat_loop_keeps_the_connection (W : World) (fuel : nat) (c : client) :
  (exists evs,
      history (snd (chat_loop W fuel c)) = history c ++ evs
      /\ Forall loop_event evs)
  /\ exit_stack (snd (chat_loop W fuel c)) = exit_stack c
  /\ session (snd (chat_loop W fuel c)) = session c.
Proof.
  split; [|split].
  - apply chat_loop_emits_events; simpl; auto.
  - apply chat_loop_keeps. reflexivity.
  - apply chat_loop_keeps. reflexivity.
Qed.

(* ===================================================================== *)
(** ** Connecting, and what [main] does around the loop *)
(* ===================================================================== *)

Lemma startswith_iff (s p : str) :
  startswith s p = true <-> exists rest, s = p ++ rest.
Proof.
  revert s. induction p as [|x p IH]; intro s; simpl.
  - split; [intros _; now exists s|intros _; destruct s; reflexivity].
  - destruct s as [|y s].
    + split; [discriminate|intros [rest H]; discriminate].
    + change (startswith (y :: s) (x :: p)) with (N.eqb x y && startswith s p).
      rewrite andb_true_iff, N.eqb_eq, IH. split.
      * intros [-> [rest ->]]. now exists rest.
      * intros [rest H]. injection H as -> ->. split; [reflexivity|now exists rest].
Qed.

Lemma endswith_iff (s suffix : str) :
  endswith s suffix = true <-> exists stem, s = stem ++ suffix.
Proof.
  unfold endswith. rewrite startswith_iff. split.
  - intros [rest H]. exists (rev rest).
    apply (f_equal (@rev N)) in H.
    now rewrite rev_involutive, rev_app_distr, rev_involutive in H.
  - intros [stem ->]. exists (rev stem). now rewrite rev_app_distr.
Qed.

Lemma connect_after_check (W : World) (path : str) :
  endswith path (u ".py") = true ->
  connect_to_server W path =
  (enter_async_context W (stdio_for path) ;;;
   enter_async_context W ClientSessionCtx ;;;
   handshake W).
Proof. intro Hext. unfold connect_to_server. rewrite Hext. reflexivity. Qed.

Lemma handshake_emits (W : World) : emits connect_event (handshake W).
Proof.
  unfold handshake.
  apply emits_bind; [apply emits_set_session|]. intros _.
  apply emits_bind; [apply emits_on_session, emits_ask; exact I|]. intros _.
  apply emits_bind; [apply emits_list_tools; exact I|]. intros tools.
  apply emits_print. exact I.
Qed.

Lemma connect_emits_events (W : World) (path : str) :
  emits connect_event (connect_to_server W path).
Proof.
  destruct (endswith path (u ".py")) eqn:Hext.
  - rewrite (connect_after_check W path Hext).
    apply emits_bind; [apply emits_enter; exact I|]. intros _.
    apply emits_bind; [apply emits_enter; exact I|]. intros _.
    apply handshake_emits.
  - unfold connect_to_server. rewrite Hext. apply emits_raise.
Qed.

Lemma handshake_keeps_stack (W : World) : keeps exit_stack (handshake W).
Proof.
  unfold handshake.
  apply keeps_bind; [intro c; reflexivity|]. intros _.
  apply keeps_bind; [apply keeps_on_session, keeps_ask; reflexivity|]. intros _.
  apply keeps_bind; [apply keeps_list_tools; reflexivity|]. intros tools.
  apply keeps_print. reflexivity.
Qed.

Lemma handshake_sets_session (W : World) (c : client) :
  session (snd (handshake W c)) = true.
Proof.
  unfold handshake, bind at 1, set_session.
  match goal with |- session (snd (?tail ?c1)) = true =>
    assert (Hk : keeps session tail) end.
  { apply keeps_bind; [apply keeps_on_session, keeps_ask; reflexivity|]. intros _.
    apply keeps_bind; [apply keeps_list_tools; reflexivity|]. intros tools.
    apply keeps_print. reflexivity. }
  now rewrite Hk.
Qed.

(** What connecting leaves on the exit stack: the contexts it managed to
    enter, the session's above the subprocess's. *)
Lemma connect_stack (W : World) (path : str) (c : client) :
  exists entered,
    exit_stack (snd (connect_to_server W path c)) = entered ++ exit_stack c
    /\ (entered = [] \/ entered = [stdio_for path]
        \/ entered = [ClientSessionCtx; stdio_for path])
    /\ (fst (connect_to_server W path c) = Ok tt ->
        entered = [ClientSessionCtx; stdio_for path]
        /\ session (snd (connect_to_server W path c)) = true).
Proof.
  destruct (endswith path (u ".py")) eqn:Hext.
  - rewrite (connect_after_check W path Hext).
    destruct (w_enter W (history c) (stdio_for path)) as [[]|e] eqn:Hstdio.
    + destruct (w_enter W (history c ++ [EvEnter (stdio_for path)]) ClientSessionCtx)
        as [[]|e] eqn:Hsession.
      * assert (Hr : (enter_async_context W (stdio_for path) ;;;
                      enter_async_context W ClientSessionCtx ;;; handshake W) c =
                     handshake W
                       (mkClient (history c ++ [EvEnter (stdio_for path)]
                                            ++ [EvEnter ClientSessionCtx])
                                 (ClientSessionCtx :: stdio_for path :: exit_stack c)
                                 (session c))).
        { unfold bind at 1. unfold enter_async_context at 1. rewrite Hstdio.
          unfold bind at 1. unfold enter_async_context at 1. simpl history.
          rewrite Hsession. simpl. now rewrite <- app_assoc. }
        rewrite Hr. exists [ClientSessionCtx; stdio_for path]. split; [|split].
        -- now rewrite (handshake_keeps_stack W).
        -- auto.
        -- intros _. split; [reflexivity|apply handshake_sets_session].
      * assert (Hr : (enter_async_context W (stdio_for path) ;;;
                      enter_async_context W ClientSessionCtx ;;; handshake W) c =
                     (Raise e,
                      mkClient (history c ++ [EvEnter (stdio_for path)]
                                          ++ [EvEnter ClientSessionCtx])
                               (stdio_for path :: exit_stack c) (session c))).
        { unfold bind at 1. unfold enter_async_context at 1. rewrite Hstdio.
          unfold bind at 1. unfold enter_async_context at 1. simpl history.
          rewrite Hsession. simpl. unfold log. simpl. now rewrite <- app_assoc. }
        rewrite Hr. exists [stdio_for path]. simpl.
        repeat split; auto; discriminate.
    + assert (Hr : (enter_async_context W (stdio_for path) ;;;
                    enter_async_context W ClientSessionCtx ;;; handshake W) c =
                   (Raise e, log (EvEnter (stdio_for path)) c)).
      { unfold bind at 1. unfold enter_async_context at 1. now rewrite Hstdio. }
      rewrite Hr. exists []. simpl. repeat split; auto; discriminate.
  - unfold connect_to_server. rewrite Hext. exists []. simpl.
    repeat split; auto; discriminate.
Qed.

(** X1: started without a script path, [main] prints the usage line
    and exits with status 1; it builds no connection, reads nothing, and
    does not reach the [try] block, so nothing is closed either. *)
Theorem main_without_script_prints_usage
        (W : World) (fuel : nat) (argv : list str) (t : trace) :
  (List.length argv < 2)%nat ->
  main W fuel argv t =
  (Some (Raise (mkExn SystemExit (u "1"))), mkClient (t ++ [EvPrint usage]) [] false)
  /\ is_Exception SystemExit = false.
Proof.
  intro Hlen. unfold main.
  destruct (Nat.ltb_spec (List.length argv) 2) as [_|Hge]; [|lia].
  split; reflexivity.
Qed.

Lemma main_without_script_prints_usage_witness :
  main Sample.hello_world 3 [u "client_chat.py"] [] =
  (Some (Raise (mkExn SystemExit (u "1"))), mkClient [EvPrint usage] [] false).
Proof.
  apply (main_without_script_prints_usage Sample.hello_world 3 [u "client_chat.py"] []).
  simpl. lia.
Defined.

(** X2: for a [.py] path, when the two contexts can be entered and the
    server answers the handshake and the listing, connecting succeeds after
    exactly these steps in this order: launch [python] with the path as its
    only argument, open the session, initialise, list the tools, print
    their names.  Both contexts are then on the exit stack, the session's
    on top, and the session is set. *)
Theorem connect_performs_the_handshake
        (W : World) (path : str) (c : client) (tools : list Tool) :
  endswith path (u ".py") = true ->
  w_enter W (history c) (stdio_for path) = Ok tt ->
  w_enter W (history c ++ [EvEnter (stdio_for path)]) ClientSessionCtx = Ok tt ->
  w_initialize W (history c ++ [EvEnter (stdio_for path); EvEnter ClientSessionCtx])
  = Ok tt ->
  w_list_tools W (history c ++ [EvEnter (stdio_for path); EvEnter ClientSessionCtx;
                                EvInitialize])
  = Ok tools ->
  connect_to_server W path c =
  (Ok tt,
   mkClient
     (history c ++
      [ EvEnter (stdio_for path); EvEnter ClientSessionCtx; EvInitialize; EvListTools;
        EvPrint ([10%N] ++ u "Connected to server with tools: "
                 ++ w_repr W (PList (map (fun tool => PStr (tool_name tool)) tools))) ])
     (ClientSessionCtx :: stdio_for path :: exit_stack c)
     true).
Proof.
  intros Hext Hstdio Hsession Hinit Htools.
  rewrite (connect_after_check W path Hext).
  unfold bind at 1. unfold enter_async_context at 1. rewrite Hstdio.
  unfold bind at 1. unfold enter_async_context at 1. simpl history. rewrite Hsession.
  unfold handshake, bind, set_session, on_session, list_tools, on_session, ask,
    print_, log. simpl.
  rewrite <- ?app_assoc. simpl. rewrite Hinit.
  rewrite <- ?app_assoc. simpl. rewrite Htools.
  rewrite <- ?app_assoc. reflexivity.
Qed.

Lemma connect_performs_the_handshake_witness :
  connect_to_server Sample.hello_world (u "tool_server.py") (new_client []) =
  (Ok tt,
   mkClient
     [ EvEnter (stdio_for (u "tool_server.py")); EvEnter ClientSessionCtx;
       EvInitialize; EvListTools;
       EvPrint ([10%N] ++ u "Connected to server with tools: ['get_weather']") ]
     [ClientSessionCtx; stdio_for (u "tool_server.py")]
     true).
Proof.
  apply (connect_performs_the_handshake Sample.hello_world (u "tool_server.py")
           (new_client []) (tools := [Sample.get_weather])); reflexivity.
Defined.

(** X3: the extension check is a plain suffix test.  A path of the
    form stem + [.py] (an empty stem included) passes, and the first thing
    done is launching the subprocess for that very path; any other path is
    refused with nothing done. *)
Theorem script_path_must_end_in_py (W : World) (path : str) (c : client) :
  ((exists stem, path = stem ++ u ".py") ->
   exists evs,
     history (snd (connect_to_server W path c)) =
     history c ++ EvEnter (stdio_for path) :: evs
     /\ Forall connect_event evs)
  /\ (~ (exists stem, path = stem ++ u ".py") ->
      connect_to_server W path c = (Raise invalid_script, c)).
Proof.
  split.
  - intro Hstem. apply endswith_iff in Hstem.
    rewrite (connect_after_check W path Hstem).
    unfold bind at 1. unfold enter_async_context at 1.
    destruct (w_enter W (history c) (stdio_for path)) as [[]|e].
    + match goal with |- context [snd (?tail ?c1)] =>
        assert (Hem : emits connect_event tail) end.
      { apply emits_bind; [apply emits_enter; exact I|]. intros _.
        apply handshake_emits. }
      match goal with |- context [snd (?tail ?c1)] =>
        destruct (Hem c1) as [evs [Hevs Hall]] end.
      exists evs. rewrite Hevs. simpl. rewrite <- app_assoc. auto.
    + exists []. simpl. auto.
  - intro Hno. unfold connect_to_server.
    destruct (endswith path (u ".py")) eqn:Hext; [|reflexivity].
    exfalso. apply Hno. now apply endswith_iff.
Qed.

Lemma main_past_the_check (W : World) (fuel : nat) (argv : list str) (t : trace) :
  (2 <= List.length argv)%nat ->
  main W fuel argv t =
  finally_cleanup W
    match connect_to_server W (nth 1 argv []) (new_client t) with
    | (Ok _, c1) => chat_loop W fuel c1
    | (Raise e, c1) => (Some (Raise e), c1)
    end.
Proof.
  intro Hlen. unfold main.
  destruct (Nat.ltb_spec (List.length argv) 2) as [Hlt|_]; [lia|reflexivity].
Qed.

Lemma finally_cleanup_closes (W : World) (r : outcome unit) (c : client) :
  finally_cleanup W (Some r, c) =
  (Some (match w_aclose W (history c) with
         | Ok _ => r
         | Raise e => Raise e
         end),
   mkClient (history c ++ [EvAclose (exit_stack c)]) [] (session c)).
Proof.
  unfold finally_cleanup, cleanup.
  destruct (w_aclose W (history c)) as [[]|e]; reflexivity.
Qed.

(** X5: whatever a finished run of [main] did, what its closing
    releases is exactly what connecting entered: nothing, the subprocess
    alone, or the session and then the subprocess; after a successful
    connect it is always both, the session first.  The chat loop in between
    adds nothing to the exit stack and takes nothing from it. *)
Theorem main_releases_what_connect_entered
        (W : World) (fuel : nat) (argv : list str) (t : trace)
        (r : outcome unit) (c' : client) :
  (2 <= List.length argv)%nat ->
  main W fuel argv t = (Some r, c') ->
  exists before released,
    history c' = before ++ [EvAclose released]
    /\ released = exit_stack (snd (connect_to_server W (nth 1 argv []) (new_client t)))
    /\ (released = [] \/ released = [stdio_for (nth 1 argv [])]
        \/ released = [ClientSessionCtx; stdio_for (nth 1 argv [])])
    /\ (fst (connect_to_server W (nth 1 argv []) (new_client t)) = Ok tt ->
        released = [ClientSessionCtx; stdio_for (nth 1 argv [])]).
Proof.
  intros Hlen. rewrite (main_past_the_check W fuel argv t Hlen).
  destruct (connect_stack W (nth 1 argv []) (new_client t))
    as [entered [Hstack [Hcases Hok]]].
  simpl in Hstack. rewrite app_nil_r in Hstack.
  destruct (connect_to_server W (nth 1 argv []) (new_client t)) as [[[]|e] c1];
    cbn [fst snd] in *.
  - pose proof (chat_loop_keeps W exit_stack (fun _ _ => eq_refl) fuel c1) as Hkeep.
    destruct (chat_loop W fuel c1) as [[r1|] c2]; simpl in Hkeep; [|discriminate].
    rewrite finally_cleanup_closes. intro H. injection H as _ <-. simpl.
    exists (history c2), (exit_stack c2). rewrite Hkeep, Hstack.
    repeat split; auto. intros _. now apply Hok.
  - rewrite finally_cleanup_closes. intro H. injection H as _ <-. simpl.
    exists (history c1), (exit_stack c1). rewrite Hstack.
    repeat split; auto. discriminate.
Qed.

Lemma main_releases_what_connect_entered_witness :
  exists before,
    history (snd (main Sample.hello_world 2 Sample.argv [])) =
    before ++ [EvAclose [ClientSessionCtx; stdio_for (u "tool_server.py")]].
Proof.
  destruct (main_releases_what_connect_entered
              Sample.hello_world 2 Sample.argv []
              (r := Ok tt) (c' := snd (main Sample.hello_world 2 Sample.argv []))
              (le_n 2) eq_refl)
    as [before [released [Hhist [_ [_ Hok]]]]].
  exists before. rewrite Hhist. now rewrite (Hok eq_refl).
Defined.

(** X6: when connecting fails, [main] never starts the chat loop:
    nothing is read from the console and no request is sent; the exit stack
    is closed once, and the connect error is what [main] raises, unless the
    closing itself raises. *)
Theorem failed_connect_never_prompts
        (W : World) (fuel : nat) (argv : list str) (t : trace)
        (e : exn) (c1 : client) :
  (2 <= List.length argv)%nat ->
  connect_to_server W (nth 1 argv []) (new_client t) = (Raise e, c1) ->
  main W fuel argv t =
  (Some (match w_aclose W (history c1) with
         | Ok _ => Raise e
         | Raise e' => Raise e'
         end),
   mkClient (history c1 ++ [EvAclose (exit_stack c1)]) [] (session c1))
  /\ exists evs, history c1 = t ++ evs /\ Forall connect_event evs.
Proof.
  intros Hlen Hconn. split.
  - rewrite (main_past_the_check W fuel argv t Hlen), Hconn.
    apply finally_cleanup_closes.
  - destruct (connect_emits_events W (nth 1 argv []) (new_client t))
      as [evs [Hevs Hall]].
    rewrite Hconn in Hevs. simpl in Hevs. now exists evs.
Qed.

Lemma failed_connect_never_prompts_witness :
  main Sample.no_python_world 5 Sample.argv [] =
  (Some (Raise Sample.no_python),
   mkClient [EvEnter (stdio_for (u "tool_server.py")); EvAclose []] [] false).
Proof.
  apply (failed_connect_never_prompts Sample.no_python_world 5 Sample.argv []
           (e := Sample.no_python)
           (c1 := mkClient [EvEnter (stdio_for (u "tool_server.py"))] [] false)
           (le_n 2) eq_refl).
Defined.

(** X7: connected, with [quit] as the first line typed, [main] prints
    the two opening lines, reads that one line and closes the exit stack
    with what connecting entered; it lists no tools for a query, sends no
    request and returns normally unless the closing raises. *)
Theorem main_quits_on_the_first_line
        (W : World) (fuel : nat) (argv : list str) (t : trace)
        (c1 : client) (line : str) :
  (2 <= List.length argv)%nat ->
  connect_to_server W (nth 1 argv []) (new_client t) = (Ok tt, c1) ->
  w_input W (history (greeted c1)) = Ok line ->
  str_eqb (w_lower W (strip line)) quit = true ->
  main W (S fuel) argv t =
  (Some (match w_aclose W (history (greeted c1) ++ [EvInput prompt (Ok line)]) with
         | Ok _ => Ok tt
         | Raise e => Raise e
         end),
   mkClient (history (greeted c1) ++ [EvInput prompt (Ok line); EvAclose (exit_stack c1)])
            [] (session c1)).
Proof.
  intros Hlen Hconn Hin Hquit.
  rewrite (main_past_the_check W (S fuel) argv t Hlen), Hconn.
  assert (Hloop : chat_loop W (S fuel) c1 =
                  (Some (Ok tt), log (EvInput prompt (Ok line)) (greeted c1))).
  { change (chat_loop W (S fuel) c1) with (while_true W (S fuel) (greeted c1)).
    change (while_true W (S fuel) (greeted c1)) with
      (match iteration W (greeted c1) with
       | (Ok Break, c') => (Some (Ok tt), c')
       | (Ok Continue, c') => while_true W fuel c'
       | (Raise e, c') => (Some (Raise e), c')
       end).
    now rewrite (iteration_breaks_on_quit W (greeted c1) Hin Hquit). }
  rewrite Hloop, finally_cleanup_closes. unfold log at 1 2 3 4.
  cbn [history exit_stack session]. rewrite <- app_assoc. reflexivity.
Qed.

Lemma main_quits_on_the_first_line_witness :
  fst (main (Sample.scripted [u " Quit"] [] [Sample.get_weather] Sample.sunny)
            1 Sample.argv [])
  = Some (Ok tt).
Proof.
  rewrite (main_quits_on_the_first_line
             (Sample.scripted [u " Quit"] [] [Sample.get_weather] Sample.sunny)
             0 Sample.argv []
             (c1 := snd (connect_to_server
                           (Sample.scripted [u " Quit"] [] [Sample.get_weather]
                                            Sample.sunny)
                           (u "tool_server.py") (new_client [])))
             (line := u " Quit") (le_n 2) eq_refl eq_refl eq_refl).
  reflexivity.
Defined.



(** X9: when reading the console keeps failing with an error of class
    [Exception], as it does at end of file, the loop never ends: the
    handler takes each failure for a processing error and the loop reads
    again, however long it is run. *)
Theorem loop_never_ends_at_end_of_file (W : World) (e : exn) :
  (forall t, w_input W t = Raise e) ->
  is_Exception (exn_cls e) = true ->
  forall fuel c,
    fst (while_true W fuel c) = None
    /\ List.length (prints_of (history (snd (while_true W fuel c)))) =
       (List.length (prints_of (history c)) + fuel)%nat.
Proof.
  intros Hin He.
  assert (Hp : forall (a b : trace), prints_of (a ++ b) = prints_of a ++ prints_of b).
  { intros a b. induction a as [|ev a IHa]; simpl; [reflexivity|].
    destruct ev; simpl; now rewrite IHa. }
  assert (Hit : forall c,
             iteration W c =
             (Ok Continue,
              log (EvPrint ([10%N] ++ u "Errore: " ++ exn_str e))
                  (log (EvInput prompt (Raise e)) c))).
  { intro c. unfold iteration, try_except, read_and_process, bind at 1, input_.
    now rewrite Hin, He. }
  induction fuel as [|fuel IH]; intro c.
  - simpl. split; [reflexivity|lia].
  - change (while_true W (S fuel) c) with
      (match iteration W c with
       | (Ok Break, c') => (Some (Ok tt), c')
       | (Ok Continue, c') => while_true W fuel c'
       | (Raise e, c') => (Some (Raise e), c')
       end).
    rewrite Hit.
    destruct (IH (log (EvPrint ([10%N] ++ u "Errore: " ++ exn_str e))
                      (log (EvInput prompt (Raise e)) c))) as [Hnone Hprints].
    split; [exact Hnone|]. rewrite Hprints.
    unfold log. cbn [history]. rewrite !Hp, !length_app. simpl. lia.
Qed.

Lemma loop_never_ends_at_end_of_file_witness :
  fst (while_true Sample.eof_world 7 (Sample.connected [])) = None.
Proof.
  apply (loop_never_ends_at_end_of_file Sample.eof_world
           (e := mkExn EOFError (u "EOF when reading a line"))).
  - intro t. unfold Sample.eof_world, Sample.scripted. simpl.
    now destruct (List.length (filter Sample.is_input t)).
  - reflexivity.
Defined.

(* ===================================================================== *)
(** ** One query, from the listing to the answer *)
(* ===================================================================== *)

Lemma process_query_reads (W : World) (query : str) (c : client)
      (tools : list Tool) (response : Response) :
  session c = true ->
  w_list_tools W (history c) = Ok tools ->
  w_post W (history c ++ [EvListTools])
         (request_data query (available_tools_of tools)) = Ok response ->
  process_query W query c =
  try_except (answer_ <- lift (read_response response) ;; dispatch W answer_)
             report_ollama_error (posted query tools c).
Proof.
  intros Hs Htools Hpost.
  unfold process_query, bind at 1, list_tools, on_session, ask.
  rewrite Hs, Htools.
  unfold try_except, answer, bind.
  rewrite (call_ollama_reads W query (available_tools_of tools) (log EvListTools c) Hpost).
  unfold lift, posted.
  destruct (read_response response) as [[| | | | |calls|]|e]; reflexivity.
Qed.

Lemma read_response_of_message (response : Response)
      (body message : list (str * pyval)) :
  status response = 200%Z ->
  json_ response = Ok (PDict body) ->
  field (u "message") body (PDict []) = PDict message ->
  read_response response =
  Ok (match dict_find (u "tool_calls") message with
      | Some tool_calls => tool_calls
      | None => field (u "content") message (PStr [])
      end).
Proof.
  intros Hstatus Hjson Hmessage.
  unfold read_response. rewrite Hstatus, Hjson. simpl.
  unfold field in Hmessage. rewrite Hmessage. simpl. unfold field.
  destruct (dict_find (u "tool_calls") message); reflexivity.
Qed.

Lemma dispatch_emits (W : World) (answer_ : pyval) :
  emits batch_event (dispatch W answer_).
Proof.
  destruct answer_ as [| | | | |calls|]; simpl; try (apply emits_print; exact I).
  apply emits_run_calls; simpl; auto.
Qed.

Lemma call_ollama_logs (W : World) (query : str) (tools : pyval) (c : client) :
  snd (call_ollama W query tools c) =
  log (EvPost ollama_url headers (request_data query tools)) c.
Proof.
  unfold call_ollama, bind, post, ask, lift.
  destruct (w_post W (history c) (request_data query tools)); reflexivity.
Qed.

Lemma process_query_after_listing (W : World) (query : str) (c : client)
      (tools : list Tool) :
  session c = true ->
  w_list_tools W (history c) = Ok tools ->
  process_query W query c =
  try_except
    (fun c2 =>
       match fst (call_ollama W query (available_tools_of tools) (log EvListTools c)) with
       | Ok answer_ => dispatch W answer_ c2
       | Raise e => (Raise e, c2)
       end)
    report_ollama_error (posted query tools c).
Proof.
  intros Hs Htools.
  unfold process_query, bind at 1, list_tools, on_session, ask.
  rewrite Hs, Htools.
  unfold try_except, answer, bind.
  pose proof (call_ollama_logs W query (available_tools_of tools) (log EvListTools c))
    as Hlog.
  destruct (call_ollama W query (available_tools_of tools) (log EvListTools c))
    as [r c2].
  simpl in Hlog. subst c2. unfold posted. simpl fst.
  destruct r as [[| | | | |calls|]|e]; reflexivity.
Qed.

Lemma process_query_sends_one_request (W : World) (query : str) (c : client)
      (tools : list Tool) :
  session c = true ->
  w_list_tools W (history c) = Ok tools ->
  exists rest,
    history (snd (process_query W query c)) =
    history c ++ EvListTools
              :: EvPost ollama_url headers
                        (request_data query (available_tools_of tools))
              :: rest
    /\ Forall batch_event rest.
Proof.
  intros Hs Htools.
  rewrite (process_query_after_listing W query c Hs Htools).
  set (r := fst (call_ollama W query (available_tools_of tools)
                             (log EvListTools c))).
  assert (Hem : emits batch_event
                  (try_except (fun c2 => match r with
                                         | Ok answer_ => dispatch W answer_ c2
                                         | Raise e => (Raise e, c2)
                                         end)
                              report_ollama_error)).
  { apply emits_try_except.
    - destruct r as [answer_|e]; [apply dispatch_emits|apply emits_raise].
    - intro e. apply emits_print. exact I. }
  destruct (Hem (posted query tools c)) as [rest [Hrest Hall]].
  exists rest. split; [|exact Hall].
  rewrite Hrest. unfold posted, log. cbn [history].
  now rewrite <- !app_assoc.
Qed.

(** X10: a query lists the tools once and then sends one request,
    built for that query and for the tools just listed; nothing is cached
    and nothing is retried.  If the client has no session nothing happens
    at all, and if the listing fails no request is sent.  What follows the
    request is only printing and tool invocations. *)
Theorem one_listing_and_one_request_per_query (W : World) (query : str) (c : client) :
  exists evs,
    history (snd (process_query W query c)) = history c ++ evs
    /\ ((session c = false /\ evs = [])
        \/ (session c = true
            /\ (exists e, w_list_tools W (history c) = Raise e)
            /\ evs = [EvListTools])
        \/ (session c = true
            /\ exists tools rest,
                w_list_tools W (history c) = Ok tools
                /\ evs = EvListTools
                         :: EvPost ollama_url headers
                                   (request_data query (available_tools_of tools))
                         :: rest
                /\ Forall batch_event rest)).
Proof.
  destruct (session c) eqn:Hs.
  - destruct (w_list_tools W (history c)) as [tools|e] eqn:Htools.
    + destruct (process_query_sends_one_request W query c Hs Htools)
        as [rest [Hrest Hall]].
      eexists. split; [exact Hrest|].
      right. right. split; [reflexivity|]. now exists tools, rest.
    + exists [EvListTools]. split.
      * unfold process_query, bind, list_tools, on_session, ask.
        now rewrite Hs, Htools.
      * right. left. split; [reflexivity|]. split; [now exists e|reflexivity].
  - exists []. split.
    + unfold process_query, bind, list_tools, on_session. rewrite Hs.
      simpl. now rewrite app_nil_r.
    + left. auto.
Qed.



(** X11: a failing tool listing is not a gateway error: it is raised
    before the query's own [try], so the query sends no request and does
    not report it; the loop's handler does, under its own heading, and the
    loop continues. *)
Theorem failed_listing_is_reported_by_the_loop
        (W : World) (c : client) (line : str) (e : exn) :
  w_input W (history c) = Ok line ->
  str_eqb (w_lower W (strip line)) quit = false ->
  session c = true ->
  w_list_tools W (history c ++ [EvInput prompt (Ok line)]) = Raise e ->
  is_Exception (exn_cls e) = true ->
  process_query W (strip line) (log (EvInput prompt (Ok line)) c) =
  (Raise e, log EvListTools (log (EvInput prompt (Ok line)) c))
  /\ iteration W c =
     (Ok Continue,
      mkClient (history c ++ [ EvInput prompt (Ok line); EvListTools;
                               EvPrint ([10%N] ++ u "Errore: " ++ exn_str e) ])
               (exit_stack c) (session c)).
Proof.
  intros Hin Hquit Hs Htools He.
  assert (Hq : process_query W (strip line) (log (EvInput prompt (Ok line)) c) =
               (Raise e, log EvListTools (log (EvInput prompt (Ok line)) c))).
  { unfold process_query, bind, list_tools, on_session, ask.
    cbn [session log history]. now rewrite Hs, Htools. }
  split; [exact Hq|].
  rewrite (iteration_after_read W c Hin). unfold try_except. rewrite Hquit.
  unfold bind at 1. rewrite Hq, He.
  unfold report_error, bind, print_, ret, log. cbn [history exit_stack session].
  now rewrite <- !app_assoc.
Qed.

Lemma failed_listing_is_reported_by_the_loop_witness :
  iteration Sample.deaf_world (Sample.connected []) =
  (Ok Continue,
   mkClient [ EvInput prompt (Ok (u "  hi ")); EvListTools;
              EvPrint ([10%N] ++ u "Errore: Connection closed") ]
            (exit_stack (Sample.connected [])) true).
Proof.
  apply (failed_listing_is_reported_by_the_loop Sample.deaf_world
           (Sample.connected []) (line := u "  hi ") (e := Sample.closed));
    reflexivity.
Defined.

(** X12: an answer that is not a list is printed once, after the
    heading for the model's text, and ends the query: no tool is invoked.
    A string is printed as it is. *)
Theorem textual_answer_is_printed
        (W : World) (query : str) (c : client) (tools : list Tool)
        (response : Response) (answer_ : pyval) :
  session c = true ->
  w_list_tools W (history c) = Ok tools ->
  w_post W (history c ++ [EvListTools])
         (request_data query (available_tools_of tools)) = Ok response ->
  read_response response = Ok answer_ ->
  (forall calls, answer_ <> PList calls) ->
  process_query W query c =
  (Ok tt, log (EvPrint (model_line W answer_)) (posted query tools c))
  /\ calls_of (history (snd (process_query W query c))) = calls_of (history c)
  /\ (forall text, answer_ = PStr text ->
        model_line W answer_ = [10; 129302]%N ++ u " Modello: " ++ text).
Proof.
  intros Hs Htools Hpost Hread Hnot.
  assert (Hq : process_query W query c =
               (Ok tt, log (EvPrint (model_line W answer_)) (posted query tools c))).
  { rewrite (process_query_reads W query c Hs Htools Hpost), Hread.
    unfold try_except, bind, lift.
    destruct answer_ as [| | | | |calls|]; try reflexivity.
    now elim (Hnot calls). }
  split; [exact Hq|]. split.
  - rewrite Hq. unfold posted, log. cbn [snd history].
    rewrite !calls_of_app. simpl. now rewrite !app_nil_r.
  - intros text ->. reflexivity.
Qed.

Lemma textual_answer_is_printed_witness :
  process_query Sample.hello_world (u "hi") (Sample.connected []) =
  (Ok tt,
   log (EvPrint ([10; 129302]%N ++ u " Modello: Hello!"))
       (Sample.posted_hi)).
Proof.
  apply (textual_answer_is_printed Sample.hello_world (u "hi") (Sample.connected [])
           (tools := [Sample.get_weather]) (response := Sample.hello_response)
           (answer_ := PStr (u "Hello!")));
    try reflexivity.
  intros calls. discriminate.
Defined.

(** X13: when the message has a [tool_calls] field its [content] is
    never printed; with an empty list of calls the query therefore ends
    with no output at all and no invocation. *)
Theorem empty_batch_is_silent
        (W : World) (query : str) (c : client) (tools : list Tool)
        (response : Response) (body message : list (str * pyval)) :
  session c = true ->
  w_list_tools W (history c) = Ok tools ->
  w_post W (history c ++ [EvListTools])
         (request_data query (available_tools_of tools)) = Ok response ->
  status response = 200%Z ->
  json_ response = Ok (PDict body) ->
  field (u "message") body (PDict []) = PDict message ->
  dict_find (u "tool_calls") message = Some (PList []) ->
  process_query W query c = (Ok tt, posted query tools c)
  /\ prints_of (history (snd (process_query W query c))) = prints_of (history c).
Proof.
  intros Hs Htools Hpost Hstatus Hjson Hmessage Hcalls.
  assert (Hq : process_query W query c = (Ok tt, posted query tools c)).
  { rewrite (process_query_reads W query c Hs Htools Hpost).
    rewrite (read_response_of_message response Hstatus Hjson Hmessage), Hcalls.
    reflexivity. }
  split; [exact Hq|].
  rewrite Hq. unfold posted, log. cbn [snd history].
  assert (Hp : forall (a b : trace), prints_of (a ++ b) = prints_of a ++ prints_of b).
  { intros a b. induction a as [|ev a IHa]; simpl; [reflexivity|].
    destruct ev; simpl; now rewrite IHa. }
  rewrite !Hp. simpl. now rewrite !app_nil_r.
Qed.

Lemma empty_batch_is_silent_witness :
  prints_of (history (snd (process_query Sample.empty_batch_world (u "hi")
                                         (Sample.connected [])))) = [].
Proof.
  apply (empty_batch_is_silent Sample.empty_batch_world (u "hi") (Sample.connected [])
           (tools := [Sample.get_weather]) (response := Sample.empty_batch_response)
           (body := [(u "message", PDict [ (u "content", PStr (u "Hello!"));
                                           (u "tool_calls", PList []) ])])
           (message := [ (u "content", PStr (u "Hello!"));
                         (u "tool_calls", PList []) ]));
    reflexivity.
Defined.

(** X14: what is run as tool calls is decided by the type of the
    gateway's answer, not by the field it came from: a message without
    [tool_calls] whose [content] is a list has the elements of that list
    run as tool calls, and nothing is printed as the model's text. *)
Theorem list_content_is_run_as_calls
        (W : World) (query : str) (c : client) (tools : list Tool)
        (response : Response) (body message : list (str * pyval))
        (parts : list pyval) :
  session c = true ->
  w_list_tools W (history c) = Ok tools ->
  w_post W (history c ++ [EvListTools])
         (request_data query (available_tools_of tools)) = Ok response ->
  status response = 200%Z ->
  json_ response = Ok (PDict body) ->
  field (u "message") body (PDict []) = PDict message ->
  dict_find (u "tool_calls") message = None ->
  dict_find (u "content") message = Some (PList parts) ->
  process_query W query c =
  try_except (run_calls W parts) report_ollama_error (posted query tools c).
Proof.
  intros Hs Htools Hpost Hstatus Hjson Hmessage Hcalls Hcontent.
  rewrite (process_query_reads W query c Hs Htools Hpost).
  rewrite (read_response_of_message response Hstatus Hjson Hmessage), Hcalls.
  unfold field. rewrite Hcontent. reflexivity.
Qed.

Lemma list_content_is_run_as_calls_witness :
  calls_of (history (snd (process_query Sample.parts_world (u "hi")
                                        (Sample.connected []))))
  = [(PStr (u "get_weather"), Sample.rome)].
Proof.
  rewrite (list_content_is_run_as_calls Sample.parts_world (u "hi")
             (Sample.connected [])
             (tools := [Sample.get_weather]) (response := Sample.parts_response)
             (body := [(u "message",
                        PDict [(u "content",
                                PList [Sample.nested_call "get_weather" Sample.rome])])])
             (message := [(u "content",
                           PList [Sample.nested_call "get_weather" Sample.rome])])
             (parts := [Sample.nested_call "get_weather" Sample.rome])
             eq_refl eq_refl eq_refl eq_refl eq_refl eq_refl eq_refl eq_refl).
  reflexivity.
Defined.

(** X15: on status 200 the gateway returns a value only for a body
    that is a mapping whose [message], if there is one, is a mapping.  A
    body of another type raises [AttributeError]; a [message] of another
    type always raises too, [TypeError] or [AttributeError] depending on
    the type and on whether the text [tool_calls] occurs in it. *)
Theorem gateway_needs_mappings (response : Response) (body : pyval) :
  status response = 200%Z ->
  json_ response = Ok body ->
  (not_mapping body -> read_response response = Raise (no_attribute body "get"))
  /\ (forall fields message,
        body = PDict fields ->
        dict_find (u "message") fields = Some message ->
        not_mapping message ->
        exists e,
          read_response response = Raise e
          /\ (exn_cls e = TypeError \/ exn_cls e = AttributeError)).
Proof.
  intros Hstatus Hjson. unfold read_response. rewrite Hstatus, Hjson. simpl.
  split.
  - intro Hnot. destruct body; try reflexivity. now elim (Hnot d).
  - intros fields message -> Hfind Hnot. simpl. rewrite Hfind.
    destruct message as [| | | |text|l|d]; simpl;
      try (eexists; split; [reflexivity|left; reflexivity]).
    + destruct (contains text (u "tool_calls")); simpl;
        eexists; (split; [reflexivity|]); [left|right]; reflexivity.
    + destruct (existsb (py_eq_str (u "tool_calls")) l); simpl;
        eexists; (split; [reflexivity|]); [left|right]; reflexivity.
    + now elim (Hnot d).
Qed.

Lemma gateway_needs_mappings_witness :
  exists e,
    read_response Sample.bare_response = Raise e
    /\ (exn_cls e = TypeError \/ exn_cls e = AttributeError).
Proof.
  destruct (gateway_needs_mappings Sample.bare_response
              (body := Sample.reply (PStr (u "no tool_calls here")))
              eq_refl eq_refl) as [_ Hmessage].
  apply (Hmessage [(u "message", PStr (u "no tool_calls here"))]
                  (PStr (u "no tool_calls here")) eq_refl eq_refl).
  intros d. discriminate.
Defined.

(* ===================================================================== *)
(** ** One tool call, and a batch in which none fails *)
(* ===================================================================== *)

Lemma prints_of_app (a b : trace) : prints_of (a ++ b) = prints_of a ++ prints_of b.
Proof.
  induction a as [|ev a IH]; simpl; [reflexivity|].
  destruct ev; simpl; now rewrite IH.
Qed.

Lemma run_call_after_resolving (W : World) (call name args : pyval) (c : client) :
  session c = true ->
  resolve_call W call = Ok (name, args) ->
  run_call W call c =
  match w_call_tool W (history c ++ [EvPrint (tool_notice W name args)]) name args with
  | Ok result =>
      match result_text W result with
      | Ok text =>
          (Ok tt,
           mkClient (history c ++ [ EvPrint (tool_notice W name args);
                                    EvCallTool name args;
                                    EvPrint (result_notice W name text) ])
                    (exit_stack c) (session c))
      | Raise e =>
          (Raise e,
           mkClient (history c ++ [ EvPrint (tool_notice W name args);
                                    EvCallTool name args ])
                    (exit_stack c) (session c))
      end
  | Raise e =>
      (Raise e,
       mkClient (history c ++ [ EvPrint (tool_notice W name args);
                                EvCallTool name args ])
                (exit_stack c) (session c))
  end.
Proof.
  intros Hs Hres.
  unfold run_call, bind, lift. rewrite Hres.
  unfold print_ at 1. unfold call_tool, on_session, ask, log.
  cbn [session history exit_stack]. rewrite Hs.
  destruct (w_call_tool W (history c ++ [EvPrint (tool_notice W name args)]) name args)
    as [result|e].
  - destruct (result_text W result) as [text|e]; unfold print_, log;
      cbn [history exit_stack session]; now rewrite <- ?app_assoc.
  - now rewrite <- ?app_assoc.
Qed.

(** X16: when every entry of a batch resolves and the tool server
    answers every call with some content, the batch completes: every listed
    tool is invoked exactly once, in list order, with the name and the
    arguments its entry resolves to, and two lines are printed per call,
    the notice and the result. *)
Theorem every_call_is_invoked_when_none_fails
        (W : World) (calls : list pyval) (c : client) :
  session c = true ->
  Forall (fun call => exists na, resolve_call W call = Ok na) calls ->
  (forall t name args,
      exists result item rest,
        w_call_tool W t name args = Ok result /\ content result = item :: rest) ->
  fst (run_calls W calls c) = Ok tt
  /\ (exists invoked,
        Forall2 (fun call na => resolve_call W call = Ok na) calls invoked
        /\ calls_of (history (snd (run_calls W calls c))) =
           calls_of (history c) ++ invoked)
  /\ List.length (prints_of (history (snd (run_calls W calls c)))) =
     (List.length (prints_of (history c)) + 2 * List.length calls)%nat.
Proof.
  intros Hs Hall Hserver. revert c Hs.
  induction Hall as [|call calls [[name args] Hres] _ IH]; intros c Hs.
  - simpl. split; [reflexivity|]. split; [|lia].
    exists []. rewrite app_nil_r. auto.
  - destruct (Hserver (history c ++ [EvPrint (tool_notice W name args)]) name args)
      as [result [item [rest [Htool Hcontent]]]].
    assert (Htext : exists text, result_text W result = Ok text).
    { unfold result_text. rewrite Hcontent. destruct item; eexists; reflexivity. }
    destruct Htext as [text Htext].
    pose proof (run_call_after_resolving W call c Hs Hres) as Hrun.
    rewrite Htool, Htext in Hrun.
    simpl run_calls. unfold bind at 1 2 3. rewrite Hrun.
    match goal with |- context [run_calls W calls ?c1] =>
      destruct (IH c1 Hs) as [Hok [[invoked [Hinv Hcalls]] Hprints]] end.
    split; [exact Hok|]. split.
    + exists ((name, args) :: invoked). split; [now constructor|].
      rewrite Hcalls. cbn [history]. rewrite calls_of_app. simpl.
      now rewrite <- app_assoc.
    + rewrite Hprints. cbn [history]. rewrite prints_of_app, length_app.
      simpl. lia.
Qed.

Lemma every_call_is_invoked_when_none_fails_witness :
  fst (run_calls Sample.weather_world Sample.two_calls (Sample.connected [])) = Ok tt
  /\ exists invoked,
       Forall2 (fun call na => resolve_call Sample.weather_world call = Ok na)
               Sample.two_calls invoked
       /\ calls_of (history (snd (run_calls Sample.weather_world Sample.two_calls
                                            (Sample.connected [])))) = invoked.
Proof.
  destruct (@every_call_is_invoked_when_none_fails
              Sample.weather_world Sample.two_calls (Sample.connected []) eq_refl)
    as [Hok [Hinv _]].
  - repeat constructor; eexists; reflexivity.
  - intros t name args. do 3 eexists. split; reflexivity.
  - split; [exact Hok|exact Hinv].
Defined.

(** X17: a result with no content cannot be shown: the tool has been
    invoked by then, but taking the first element of the empty content
    raises [IndexError], nothing is printed for the call, and the batch
    stops there. *)
Theorem empty_result_stops_after_invoking
        (W : World) (call name args : pyval) (c : client) (result : CallToolResult) :
  session c = true ->
  resolve_call W call = Ok (name, args) ->
  w_call_tool W (history c ++ [EvPrint (tool_notice W name args)]) name args
  = Ok result ->
  content result = [] ->
  forall later,
    run_calls W (call :: later) c =
    (Raise (mkExn IndexError (u "list index out of range")),
     mkClient (history c ++ [EvPrint (tool_notice W name args); EvCallTool name args])
              (exit_stack c) (session c)).
Proof.
  intros Hs Hres Htool Hcontent later.
  simpl. unfold bind at 1.
  rewrite (run_call_after_resolving W call c Hs Hres), Htool.
  unfold result_text. now rewrite Hcontent.
Qed.

Lemma empty_result_stops_after_invoking_witness :
  calls_of (history (snd (run_calls Sample.mute_world Sample.two_calls
                                    (Sample.connected []))))
  = [(PStr (u "get_weather"), Sample.rome)].
Proof.
  unfold Sample.two_calls.
  rewrite (@empty_result_stops_after_invoking Sample.mute_world
             (Sample.nested_call "get_weather" (PStr Sample.rome_text))
             (PStr (u "get_weather")) Sample.rome
             (Sample.connected []) (mkResult [] false)
             eq_refl eq_refl eq_refl eq_refl).
  reflexivity.
Defined.

(** X18: an entry that is not a mapping, or whose [function] field is
    present and is not a mapping, is refused with [AttributeError] before
    anything is printed or invoked. *)
Theorem entries_must_be_mappings (W : World) (call : pyval) (c : client) :
  (not_mapping call -> run_call W call c = (Raise (no_attribute call "get"), c))
  /\ (forall d fn,
        call = PDict d ->
        dict_find (u "function") d = Some fn ->
        not_mapping fn ->
        run_call W call c = (Raise (no_attribute fn "get"), c)).
Proof.
  split.
  - intro Hnot. unfold run_call, bind, lift, resolve_call, resolve_name.
    destruct call; try reflexivity. now elim (Hnot d).
  - intros d fn -> Hfind Hnot.
    unfold run_call, bind, lift, resolve_call, resolve_name. simpl.
    rewrite Hfind. destruct fn; try reflexivity. now elim (Hnot d0).
Qed.

(** X19: the loop does not check that an entry names a tool: an entry
    with no name, nested or at the top, is still announced and invoked,
    with [None] for the name. *)
Theorem nameless_entry_is_invoked_as_None
        (W : World) (d fn : list (str * pyval)) (raw args : pyval) (c : client) :
  session c = true ->
  field (u "function") d (PDict []) = PDict fn ->
  dict_find (u "name") fn = None ->
  dict_find (u "name") d = None ->
  resolve_args_raw (PDict d) = Ok raw ->
  decode_args W raw = Ok args ->
  calls_of (history (snd (run_call W (PDict d) c))) =
  calls_of (history c) ++ [(PNone, args)].
Proof.
  intros Hs Hfn Hnested Htop Hraw Hdec.
  assert (Hres : resolve_call W (PDict d) = Ok (PNone, args)).
  { unfold resolve_call. rewrite Hraw.
    unfold resolve_name. simpl. unfold field in Hfn. rewrite Hfn. simpl.
    rewrite Hnested. simpl. rewrite Htop. simpl. now rewrite Hdec. }
  rewrite (run_call_after_resolving W (PDict d) c Hs Hres).
  destruct (w_call_tool W _ PNone args) as [result|e].
  - destruct (result_text W result) as [text|e]; cbn [snd history];
      rewrite calls_of_app; reflexivity.
  - cbn [snd history]. rewrite calls_of_app. reflexivity.
Qed.

Lemma nameless_entry_is_invoked_as_None_witness :
  calls_of (history (snd (run_call Sample.weather_world (PDict []) (Sample.connected []))))
  = [(PNone, PDict [])].
Proof.
  apply (@nameless_entry_is_invoked_as_None Sample.weather_world [] []
           (PDict []) (PDict []) (Sample.connected []));
    reflexivity.
Defined.

(* ===================================================================== *)
(** ** The query and the line it was read from *)
(* ===================================================================== *)

Lemma lstrip_drops_blank (s : str) :
  exists dropped, s = dropped ++ lstrip s /\ blank dropped.
Proof.
  induction s as [|x s [dropped [IH Hblank]]]; simpl.
  - exists []. split; [reflexivity|constructor].
  - destruct (is_space x) eqn:Hx.
    + exists (x :: dropped). simpl. split; [now rewrite <- IH|].
      constructor; assumption.
    + exists []. split; [reflexivity|constructor].
Qed.

Lemma rstrip_drops_blank (s : str) :
  exists dropped, s = rstrip s ++ dropped /\ blank dropped.
Proof.
  destruct (lstrip_drops_blank (rev s)) as [dropped [H Hblank]].
  exists (rev dropped). split.
  - unfold rstrip. rewrite <- rev_app_distr, <- H. now rewrite rev_involutive.
  - unfold blank. now apply Forall_rev.
Qed.

Lemma lstrip_fixed (s : str) :
  (forall ch rest, s = ch :: rest -> is_space ch = false) -> lstrip s = s.
Proof.
  intro Hhead. destruct s as [|ch rest]; simpl; [reflexivity|].
  now rewrite (Hhead ch rest eq_refl).
Qed.

Lemma rstrip_fixed (s : str) :
  (forall front ch, s = front ++ [ch] -> is_space ch = false) -> rstrip s = s.
Proof.
  intro Hlast. unfold rstrip. rewrite lstrip_fixed; [apply rev_involutive|].
  intros ch rest Hrev. apply (Hlast (rev rest) ch).
  rewrite <- (rev_involutive s), Hrev. reflexivity.
Qed.

Lemma strip_fixed (s : str) : trimmed s -> strip s = s.
Proof.
  intros [Hhead Hlast]. unfold strip.
  rewrite (lstrip_fixed Hhead). now apply rstrip_fixed.
Qed.

Lemma strip_blank (s : str) : blank s -> strip s = [].
Proof.
  intro Hblank. unfold strip.
  assert (Hl : lstrip s = []).
  { induction Hblank as [|ch s Hch _ IH]; simpl; [reflexivity|]. now rewrite Hch. }
  now rewrite Hl.
Qed.

(** X20: the query differs from the line typed only by whitespace at
    the two ends: the line is some whitespace, the query, and some
    whitespace again, so whitespace inside the query is kept.  Stripping
    changes nothing in a text with no whitespace at its ends, hence
    nothing when done twice, and leaves nothing of a blank line. *)
Theorem query_is_the_line_without_outer_whitespace (line : str) :
  (exists before after,
      line = before ++ strip line ++ after /\ blank before /\ blank after)
  /\ (trimmed line -> strip line = line)
  /\ strip (strip line) = strip line
  /\ (blank line -> strip line = []).
Proof.
  split; [|split; [|split]].
  - destruct (lstrip_drops_blank line) as [before [Hbefore Hb1]].
    destruct (rstrip_drops_blank (lstrip line)) as [after [Hafter Hb2]].
    exists before, after. unfold strip. rewrite <- Hafter. auto.
  - apply strip_fixed.
  - apply strip_fixed, strip_trimmed.
  - apply strip_blank.
Qed.

(** X21: a blank line is not skipped: with the quit sentinel not
    matching the empty text, the loop processes an empty query, so the
    tools are listed and a request with an empty user message is sent. *)
Theorem blank_line_is_sent_as_an_empty_query
        (W : World) (c : client) (line : str) (tools : list Tool) :
  w_input W (history c) = Ok line ->
  blank line ->
  str_eqb (w_lower W []) quit = false ->
  session c = true ->
  w_list_tools W (history c ++ [EvInput prompt (Ok line)]) = Ok tools ->
  exists rest,
    history (snd (iteration W c)) =
    history c ++ EvInput prompt (Ok line)
              :: EvListTools
              :: EvPost ollama_url headers
                        (request_data [] (available_tools_of tools))
              :: rest.
Proof.
  intros Hin Hblank Hquit Hs Htools.
  rewrite (iteration_after_read W c Hin), (strip_blank Hblank).
  unfold try_except. rewrite Hquit. unfold bind at 1.
  destruct (process_query_sends_one_request W []
              (log (EvInput prompt (Ok line)) c) (tools := tools) Hs Htools)
    as [rest [Hrest _]].
  cbn [log history] in Hrest. rewrite <- app_assoc in Hrest. simpl in Hrest.
  destruct (process_query W [] (log (EvInput prompt (Ok line)) c)) as [[[]|e] c2];
    cbn [snd] in Hrest.
  - exists rest. exact Hrest.
  - destruct (is_Exception (exn_cls e)).
    + exists (rest ++ [EvPrint ([10%N] ++ u "Errore: " ++ exn_str e)]).
      unfold report_error, bind, print_, ret, log. cbn [snd history].
      rewrite Hrest, <- app_assoc. reflexivity.
    + exists rest. exact Hrest.
Qed.

Lemma blank_line_is_sent_as_an_empty_query_witness :
  exists rest,
    history (snd (iteration Sample.blank_world (Sample.connected []))) =
    EvInput prompt (Ok [32; 9; 160]%N)
    :: EvListTools
    :: EvPost ollama_url headers
              (request_data [] (available_tools_of [Sample.get_weather]))
    :: rest.
Proof.
  apply (@blank_line_is_sent_as_an_empty_query Sample.blank_world
           (Sample.connected []) [32; 9; 160]%N [Sample.get_weather]);
    try reflexivity.
  repeat constructor.
Defined.

Lemma script_path_must_end_in_py_witness :
  exists evs,
    history (snd (connect_to_server Sample.no_python_world (u "tool_server.py")
                                    (new_client [])))
    = EvEnter (stdio_for (u "tool_server.py")) :: evs
    /\ Forall connect_event evs.
Proof.
  destruct (script_path_must_end_in_py Sample.no_python_world
              (u "tool_server.py") (new_client [])) as [Hpy _].
  apply Hpy. now exists (u "tool_server").
Defined.

Lemma entries_must_be_mappings_witness :
  run_call Sample.weather_world (PStr (u "get_weather")) (Sample.connected [])
  = (Raise (no_attribute (PStr (u "get_weather")) "get"), Sample.connected []).
Proof.
  destruct (entries_must_be_mappings Sample.weather_world
              (PStr (u "get_weather")) (Sample.connected [])) as [Hentry _].
  apply Hentry. intros d. discriminate.
Defined.

Lemma query_is_the_line_without_outer_whitespace_witness :
  strip (u "what's the weather") = u "what's the weather".
Proof.
  destruct (query_is_the_line_without_outer_whitespace (u "what's the weather"))
    as [_ [Hfixed _]].
  apply Hfixed. split.
  - intros ch rest H. injection H as <- _. reflexivity.
  - intros front ch H.
    apply (f_equal (@rev N)) in H. rewrite rev_app_distr in H.
    simpl in H. injection H as <- _. reflexivity.
Defined.
